(** * ResNet (ResNet/ResNet.ipynb): block composition and shape matching

    A shallow embedding of the four classes of the notebook
    ([ShortcutProjection], [ResidualBlock], [BottleneckResidualBlock],
    [ResNetBase]) and of the way [ResNetBase.__init__] lays the blocks out.

    Python integers are [Z]; Python lists are [list]; a Python exception is
    the [Raise] branch of [result].

    The numerical library (torch) is an external collaborator.  Its layer
    constructors are modelled as recording their arguments, and as raising
    when a parameter tensor cannot be allocated: always with a negative
    extent, otherwise as the machine decides ([Allocator]).  The
    forward passes are written once over an interface [TensorOps] of the
    library's primitives; the interface is then instantiated with tensor
    shapes, following the documented shape rules of [torch.nn.Conv2d],
    [torch.nn.BatchNorm2d], broadcasting addition, [Tensor.view] and
    [Tensor.mean]. *)

From Stdlib Require Import ZArith List Bool Lia.
Import ListNotations.
Open Scope Z_scope.

(** ** Exceptions and the error monad *)

Inductive exn : Type :=
| AssertionError   (* a failed [assert] *)
| IndexError       (* list index out of range *)
| RuntimeError     (* raised inside the tensor library *)
| ValueError.      (* raised by the tensor library's argument checks *)

Inductive result (A : Type) : Type :=
| Ok (a : A)
| Raise (e : exn).

Arguments Ok {A} a.
Arguments Raise {A} e.

Definition bind {A B : Type} (m : result A) (k : A -> result B) : result B :=
  match m with
  | Ok a => k a
  | Raise e => Raise e
  end.

Notation "x <- m ;; k" := (bind m (fun x => k))
  (at level 61, m at next level, right associativity).
Notation "' pat <- m ;; k" := (bind m (fun x => match x with pat => k end))
  (at level 61, pat pattern, m at next level, right associativity).

(** [assert c] *)
Definition assert (c : bool) : result unit :=
  if c then Ok tt else Raise AssertionError.

(** [l[i]] for an index [i >= 0] *)
Definition index {A : Type} (l : list A) (i : nat) : result A :=
  match nth_error l i with
  | Some a => Ok a
  | None => Raise IndexError
  end.

(** ** Layers of the tensor library

    A layer object keeps the arguments it was constructed with. *)

Inductive layer : Type :=
| Conv2d (in_channels out_channels kernel_size stride padding : Z)
| BatchNorm2d (num_features : Z)
| ReLU
| Identity.

(** Whether the machine can allocate a tensor of the given shape: the
    extents must fit the library's integers and the tensor the memory that
    is left.  Nothing is assumed about it. *)
Class Allocator : Type := can_allocate : list Z -> bool.

(** The shapes of the tensors a layer constructor allocates: weight and bias
    of a convolution; weight, bias, running mean, running variance and batch
    counter of a normalization. *)
Definition layer_parameters (l : layer) : list (list Z) :=
  match l with
  | Conv2d i o k _ _ => [[o; i; k; k]; [o]]
  | BatchNorm2d n => [[n]; [n]; [n]; [n]; []]
  | ReLU | Identity => []
  end.

(** A tensor is allocated when no extent is negative and the machine has
    room for it. *)
Definition allocatable {alloc : Allocator} (s : list Z) : bool :=
  forallb (fun e => 0 <=? e) s && can_allocate s.

Definition constructible {alloc : Allocator} (l : layer) : bool :=
  forallb allocatable (layer_parameters l).

(** [nn.Conv2d(in_channels, out_channels, kernel_size=k, stride=s, padding=p)]:
    the constructor records its arguments and allocates the parameters; it
    raises when one of them cannot be allocated. *)
Definition nn_Conv2d {alloc : Allocator}
  (in_channels out_channels kernel_size stride padding : Z) : result layer :=
  let l := Conv2d in_channels out_channels kernel_size stride padding in
  if constructible l then Ok l else Raise RuntimeError.

(** [nn.BatchNorm2d(num_features)] *)
Definition nn_BatchNorm2d {alloc : Allocator} (num_features : Z) : result layer :=
  let l := BatchNorm2d num_features in
  if constructible l then Ok l else Raise RuntimeError.

(** ** The primitives consumed from the tensor library *)

Class TensorOps (T : Type) : Type := {
  conv2d : Z -> Z -> Z -> Z -> Z -> T -> result T;
  batch_norm : Z -> T -> result T;
  relu : T -> T;
  add : T -> T -> result T;
  (* [x.view(x.shape[0], x.shape[1], -1)] *)
  view_flat : T -> result T;
  (* [x.mean(dim=-1)] *)
  mean_last : T -> result T
}.

Section Forward.
Context {T : Type} {ops : TensorOps T}.

(** Calling a layer on a tensor. *)
Definition layer_forward (l : layer) (x : T) : result T :=
  match l with
  | Conv2d i o k s p => conv2d i o k s p x
  | BatchNorm2d n => batch_norm n x
  | ReLU => Ok (relu x)
  | Identity => Ok x
  end.

(** An [nn.Sequential] of layers called on [x]: the layers applied left to
    right. *)
Fixpoint sequential (ls : list layer) (x : T) : result T :=
  match ls with
  | [] => Ok x
  | l :: ls' => y <- layer_forward l x ;; sequential ls' y
  end.
End Forward.

(** ** ShortcutProjection *)

Module ShortcutProjection.
Record t : Type := { conv : layer; bn : layer }.

Definition init {alloc : Allocator} (in_channels out_channels stride : Z)
  : result t :=
  conv <- nn_Conv2d in_channels out_channels 1 stride 0 ;;
  bn <- nn_BatchNorm2d out_channels ;;
  Ok {| conv := conv; bn := bn |}.

Definition forward {T : Type} {ops : TensorOps T} (self : t) (x : T) : result T :=
  y <- layer_forward (conv self) x ;;
  layer_forward (bn self) y.
End ShortcutProjection.

(** The [shortcut] attribute of a block: a [ShortcutProjection] or
    [nn.Identity()]. *)
Inductive shortcut_t : Type :=
| Projection (p : ShortcutProjection.t)
| IdentityShortcut.

(** The choice both block constructors make. *)
Definition make_shortcut {alloc : Allocator} (in_channels out_channels stride : Z)
  : result shortcut_t :=
  if negb (stride =? 1) || negb (in_channels =? out_channels)
  then p <- ShortcutProjection.init in_channels out_channels stride ;;
       Ok (Projection p)
  else Ok IdentityShortcut.

Definition shortcut_forward {T : Type} {ops : TensorOps T} (s : shortcut_t) (x : T)
  : result T :=
  match s with
  | Projection p => ShortcutProjection.forward p x
  | IdentityShortcut => layer_forward Identity x
  end.

(** ** ResidualBlock *)

Module ResidualBlock.
Record t : Type := { res : list layer; shortcut : shortcut_t; act : layer }.

Definition init {alloc : Allocator} (in_channels out_channels stride : Z)
  : result t :=
  c1 <- nn_Conv2d in_channels out_channels 3 stride 1 ;;
  b1 <- nn_BatchNorm2d out_channels ;;
  c2 <- nn_Conv2d out_channels out_channels 3 1 1 ;;
  b2 <- nn_BatchNorm2d out_channels ;;
  sc <- make_shortcut in_channels out_channels stride ;;
  Ok {| res := [c1; b1; ReLU; c2; b2]; shortcut := sc; act := ReLU |}.

Definition forward {T : Type} {ops : TensorOps T} (self : t) (x : T) : result T :=
  sc <- shortcut_forward (shortcut self) x ;;
  x <- sequential (res self) x ;;
  s <- add x sc ;;
  layer_forward (act self) s.
End ResidualBlock.

(** ** BottleneckResidualBlock *)

Module BottleneckResidualBlock.
Record t : Type := { res : list layer; shortcut : shortcut_t; act : layer }.

Definition init {alloc : Allocator}
  (in_channels bottleneck_channels out_channels stride : Z) : result t :=
  c1 <- nn_Conv2d in_channels bottleneck_channels 1 1 0 ;;
  b1 <- nn_BatchNorm2d bottleneck_channels ;;
  c2 <- nn_Conv2d bottleneck_channels bottleneck_channels 3 stride 1 ;;
  b2 <- nn_BatchNorm2d bottleneck_channels ;;
  c3 <- nn_Conv2d bottleneck_channels out_channels 1 1 0 ;;
  b3 <- nn_BatchNorm2d out_channels ;;
  sc <- make_shortcut in_channels out_channels stride ;;
  Ok {| res := [c1; b1; ReLU; c2; b2; ReLU; c3; b3];
        shortcut := sc; act := ReLU |}.

Definition forward {T : Type} {ops : TensorOps T} (self : t) (x : T) : result T :=
  sc <- shortcut_forward (shortcut self) x ;;
  x <- sequential (res self) x ;;
  s <- add x sc ;;
  layer_forward (act self) s.
End BottleneckResidualBlock.

(** An element of the list [blocks]: an object of either class. *)
Inductive block : Type :=
| Plain (b : ResidualBlock.t)
| Bottleneck (b : BottleneckResidualBlock.t).

Definition block_res (b : block) : list layer :=
  match b with
  | Plain r => ResidualBlock.res r
  | Bottleneck r => BottleneckResidualBlock.res r
  end.

Definition block_shortcut (b : block) : shortcut_t :=
  match b with
  | Plain r => ResidualBlock.shortcut r
  | Bottleneck r => BottleneckResidualBlock.shortcut r
  end.

Definition block_forward {T : Type} {ops : TensorOps T} (b : block) (x : T) : result T :=
  match b with
  | Plain r => ResidualBlock.forward r x
  | Bottleneck r => BottleneckResidualBlock.forward r x
  end.

(** The [nn.Sequential] of the blocks called on [x]. *)
Fixpoint blocks_forward {T : Type} {ops : TensorOps T} (bs : list block) (x : T)
  : result T :=
  match bs with
  | [] => Ok x
  | b :: bs' => y <- block_forward b x ;; blocks_forward bs' y
  end.

(** ** ResNetBase *)

Module ResNetBase.
Record t : Type := { conv : layer; bn : layer; blocks : list block }.

Section Init.
Context {alloc : Allocator}.
Variable n_blocks : list Z.
Variable bottlenecks : option (list Z).

(** The block appended by both the head of a stage and the inner loop:
    [ResidualBlock(i, o, stride)] when [bottlenecks is None], else
    [BottleneckResidualBlock(i, bottlenecks[idx], o, stride)]. *)
Definition new_block (idx : nat) (in_channels out_channels stride : Z)
  : result block :=
  match bottlenecks with
  | None =>
      b <- ResidualBlock.init in_channels out_channels stride ;;
      Ok (Plain b)
  | Some bs =>
      w <- index bs idx ;;
      b <- BottleneckResidualBlock.init in_channels w out_channels stride ;;
      Ok (Bottleneck b)
  end.

(** [for _ in range(k): blocks.append(<block>(channels, channels, stride=1))] *)
Fixpoint inner_loop (k : nat) (idx : nat) (channels : Z) (blocks : list block)
  : result (list block) :=
  match k with
  | O => Ok blocks
  | S k' =>
      b <- new_block idx channels channels 1 ;;
      inner_loop k' idx channels (blocks ++ [b])
  end.

(** One iteration of [for i, channels in enumerate(n_channels)], on the
    loop state [(blocks, prev_channels)]. *)
Definition stage (i : nat) (channels : Z) (st : list block * Z)
  : result (list block * Z) :=
  let '(blocks, prev_channels) := st in
  let stride := if Nat.eqb (length blocks) 0 then 2 else 1 in
  b <- new_block i prev_channels channels stride ;;
  let blocks := blocks ++ [b] in
  let prev_channels := channels in
  n <- index n_blocks i ;;
  blocks <- inner_loop (Z.to_nat (n - 1)) i channels blocks ;;
  Ok (blocks, prev_channels).

(** The whole [for] loop, from index [i] on. *)
Fixpoint stages (i : nat) (chs : list Z) (st : list block * Z)
  : result (list block * Z) :=
  match chs with
  | [] => Ok st
  | channels :: chs' =>
      st' <- stage i channels st ;;
      stages (S i) chs' st'
  end.
End Init.

Definition init {alloc : Allocator}
  (n_blocks n_channels : list Z) (bottlenecks : option (list Z))
  (img_channels first_kernel_size : Z) : result t :=
  _ <- assert (Nat.eqb (length n_blocks) (length n_channels)) ;;
  _ <- assert (match bottlenecks with
               | None => true
               | Some bs => Nat.eqb (length bs) (length n_channels)
               end) ;;
  c0 <- index n_channels 0 ;;
  conv <- nn_Conv2d img_channels c0 first_kernel_size 2 (first_kernel_size / 2) ;;
  c0 <- index n_channels 0 ;;
  bn <- nn_BatchNorm2d c0 ;;
  prev_channels <- index n_channels 0 ;;
  ' (blocks, _) <- stages n_blocks bottlenecks 0 n_channels ([], prev_channels) ;;
  Ok {| conv := conv; bn := bn; blocks := blocks |}.

(** The signature's defaults: [bottlenecks=None, img_channels=3,
    first_kernel_size=7]. *)
Definition init_default {alloc : Allocator} (n_blocks n_channels : list Z)
  : result t :=
  init n_blocks n_channels None 3 7.

Definition forward {T : Type} {ops : TensorOps T} (self : t) (x : T) : result T :=
  x <- layer_forward (conv self) x ;;
  x <- layer_forward (bn self) x ;;
  x <- blocks_forward (blocks self) x ;;
  x <- view_flat x ;;
  mean_last x.
End ResNetBase.

(** ** Tensor shapes

    The shape-level reading of the primitives: a tensor is abstracted to its
    shape, and each primitive to the shape it returns, or to the exception it
    raises when the library rejects the operands. *)

Definition shape : Type := list Z.

(** Output extent of a convolution along one spatial axis (dilation 1). *)
Definition conv_out (h k s p : Z) : Z := (h + 2 * p - k) / s + 1.

(** The library rejects an empty kernel, a non-positive stride, a negative
    padding and a kernel larger than the padded input.  It also rejects a
    convolution without output channel and an input whose channel count is
    not the one the convolution expects; for a convolution of no input
    channel the result has no channel either. *)
Definition conv_axis_ok (h k s p : Z) : bool :=
  (0 <? k) && (0 <? s) && (0 <=? p) && (k <=? h + 2 * p).

Definition conv2d_shape (i o k s p : Z) (x : shape) : result shape :=
  match x with
  | [b; c; h; w] =>
      if (0 <? o) && (c =? i) && conv_axis_ok h k s p && conv_axis_ok w k s p
      then Ok [b; (if c =? 0 then 0 else o); conv_out h k s p; conv_out w k s p]
      else Raise RuntimeError
  | [c; h; w] =>                         (* unbatched input *)
      if (0 <? o) && (c =? i) && conv_axis_ok h k s p && conv_axis_ok w k s p
      then Ok [(if c =? 0 then 0 else o); conv_out h k s p; conv_out w k s p]
      else Raise RuntimeError
  | _ => Raise RuntimeError
  end.

(** Whether the modules are in training mode, as they are when just
    constructed, or in evaluation mode. *)
Class Mode : Type := training : bool.

(** [BatchNorm2d] expects a 4-d input with [num_features] channels and keeps
    its shape.  In training mode it first refuses an input that has a single
    value per channel, since no variance can be estimated from it.  A tensor
    without elements is returned as it is, scaled by the first weight,
    without a look at its channel count. *)
Definition batch_norm_shape {mode : Mode} (n : Z) (x : shape) : result shape :=
  match x with
  | [b; c; h; w] =>
      if training && (b * h * w =? 1) then Raise ValueError
      else if b * c * h * w =? 0
           then (if 0 <? n then Ok x else Raise IndexError)
      else if c =? n then Ok x
      else Raise RuntimeError
  | _ => Raise ValueError
  end.

(** [x + y] broadcasts: shapes are aligned at their last axis, and two
    extents are compatible when they are equal or one of them is 1. *)
Definition broadcast_dim (a b : Z) : result Z :=
  if a =? b then Ok a
  else if a =? 1 then Ok b
  else if b =? 1 then Ok a
  else Raise RuntimeError.

Fixpoint broadcast_rev (x y : list Z) : result (list Z) :=
  match x, y with
  | [], _ => Ok y
  | _, [] => Ok x
  | a :: x', b :: y' =>
      d <- broadcast_dim a b ;;
      r <- broadcast_rev x' y' ;;
      Ok (d :: r)
  end.

Definition add_shape (x y : shape) : result shape :=
  r <- broadcast_rev (rev x) (rev y) ;;
  Ok (rev r).

(** [x.view(x.shape[0], x.shape[1], -1)]: the third extent is inferred from
    the number of elements, which is impossible when the first two multiply
    to zero. *)
Definition view_flat_shape (x : shape) : result shape :=
  match x with
  | b :: c :: rest =>
      if b * c =? 0 then Raise RuntimeError
      else Ok [b; c; fold_right Z.mul 1 rest]
  | _ => Raise IndexError
  end.

(** [x.mean(dim=-1)] drops the last axis. *)
Definition mean_last_shape (x : shape) : result shape := Ok (removelast x).

#[export] Instance shape_ops {mode : Mode} : TensorOps shape := {|
  conv2d := conv2d_shape;
  batch_norm := batch_norm_shape;
  relu := fun x => x;
  add := add_shape;
  view_flat := view_flat_shape;
  mean_last := mean_last_shape
|}.

(** ** What the constructors return

    The objects built by the three constructors when no allocation fails,
    written out as values. *)

Definition shortcut_of (in_channels out_channels stride : Z) : shortcut_t :=
  if negb (stride =? 1) || negb (in_channels =? out_channels)
  then Projection {| ShortcutProjection.conv := Conv2d in_channels out_channels 1 stride 0;
                     ShortcutProjection.bn := BatchNorm2d out_channels |}
  else IdentityShortcut.

Definition residual_block (in_channels out_channels stride : Z) : block :=
  Plain {| ResidualBlock.res :=
             [Conv2d in_channels out_channels 3 stride 1; BatchNorm2d out_channels;
              ReLU;
              Conv2d out_channels out_channels 3 1 1; BatchNorm2d out_channels];
           ResidualBlock.shortcut := shortcut_of in_channels out_channels stride;
           ResidualBlock.act := ReLU |}.

Definition bottleneck_block (in_channels bottleneck_channels out_channels stride : Z)
  : block :=
  Bottleneck
    {| BottleneckResidualBlock.res :=
         [Conv2d in_channels bottleneck_channels 1 1 0; BatchNorm2d bottleneck_channels;
          ReLU;
          Conv2d bottleneck_channels bottleneck_channels 3 stride 1;
          BatchNorm2d bottleneck_channels;
          ReLU;
          Conv2d bottleneck_channels out_channels 1 1 0; BatchNorm2d out_channels];
       BottleneckResidualBlock.shortcut := shortcut_of in_channels out_channels stride;
       BottleneckResidualBlock.act := ReLU |}.

(** The block of a stage with optional bottleneck width [w]. *)
Definition built_block (w : option Z) (in_channels out_channels stride : Z) : block :=
  match w with
  | None => residual_block in_channels out_channels stride
  | Some w => bottleneck_block in_channels w out_channels stride
  end.

(** ** Observations on a block *)

Definition layer_strides (l : layer) : list Z :=
  match l with
  | Conv2d _ _ _ s _ => [s]
  | _ => []
  end.

Definition shortcut_layers (s : shortcut_t) : list layer :=
  match s with
  | Projection p => [ShortcutProjection.conv p; ShortcutProjection.bn p]
  | IdentityShortcut => [Identity]
  end.

(** The strides of all convolutions of a block, transformed path first. *)
Definition conv_strides (b : block) : list Z :=
  flat_map layer_strides (block_res b ++ shortcut_layers (block_shortcut b)).

Definition is_projection (s : shortcut_t) : bool :=
  match s with
  | Projection _ => true
  | IdentityShortcut => false
  end.

(** ** The layout of the block list, stage by stage

    The description of the sequence of blocks in the words of the design:
    stage [i] is one block from the previous width to [n_channels[i]], with
    stride 2 for the first stage only, followed by [n_blocks[i] - 1] blocks
    that keep the width, with stride 1. *)

Section Layout.
Variable n_blocks n_channels : list Z.
Variable bottlenecks : option (list Z).

Definition count_at (i : nat) : Z := nth i n_blocks 0.
Definition width_at (i : nat) : Z := nth i n_channels 0.
(** [prev_channels] when stage [i] starts: [n_channels[0]] for the first
    stage, the width of stage [i - 1] otherwise. *)
Definition prev_width (i : nat) : Z := nth (Nat.pred i) n_channels 0.
Definition bottleneck_at (i : nat) : option Z :=
  option_map (fun bs => nth i bs 0) bottlenecks.

Definition spec_first_block (i : nat) : block :=
  built_block (bottleneck_at i) (prev_width i) (width_at i)
    (if Nat.eqb i 0 then 2 else 1).

Definition spec_inner_block (i : nat) : block :=
  built_block (bottleneck_at i) (width_at i) (width_at i) 1.

Definition spec_stage (i : nat) : list block :=
  spec_first_block i :: repeat (spec_inner_block i) (Z.to_nat (count_at i - 1)).

Definition spec_blocks : list block :=
  concat (map spec_stage (seq 0 (length n_channels))).

(** The bottleneck widths, when given, cover stage [idx]. *)
Definition bottleneck_ready (idx : nat) : Prop :=
  forall bs, bottlenecks = Some bs -> (idx < length bs)%nat.

(** The blocks one iteration of the outer loop appends. *)
Definition appended (i : nat) (prev ch : Z) (first : bool) : list block :=
  built_block (bottleneck_at i) prev ch (if first then 2 else 1)
  :: repeat (built_block (bottleneck_at i) ch ch 1) (Z.to_nat (count_at i - 1)).

(** When the outer loop is about to run stage [i] on the remaining widths
    [chs], the state [(blocks, prev)] satisfies: [chs] is what is left of
    [n_channels], [prev] is the previous width, and [blocks] is empty
    exactly before the first stage. *)
Definition loop_inv (i : nat) (chs : list Z) (blocks : list block) (prev : Z) : Prop :=
  skipn i n_channels = chs /\
  prev = prev_width i /\
  (length blocks = 0%nat <-> i = 0%nat).
End Layout.

(** Number of blocks a stage with block count [n] contributes, and the
    position in [blocks] at which stage [i] starts. *)
Definition stage_len (n : Z) : nat := S (Z.to_nat (n - 1)).

Definition stage_start (n_blocks : list Z) (i : nat) : nat :=
  list_sum (map stage_len (firstn i n_blocks)).

(** [sum(l)] *)
Definition sum (l : list Z) : Z := fold_right Z.add 0 l.

(** Constructing a block of either class: [ResidualBlock(i, o, stride)] when
    no bottleneck width is given, [BottleneckResidualBlock(i, w, o, stride)]
    otherwise. *)
Definition block_init {alloc : Allocator}
  (w : option Z) (in_channels out_channels stride : Z) : result block :=
  match w with
  | None =>
      b <- ResidualBlock.init in_channels out_channels stride ;;
      Ok (Plain b)
  | Some w =>
      b <- BottleneckResidualBlock.init in_channels w out_channels stride ;;
      Ok (Bottleneck b)
  end.

(** Spatial extent after a stride-[s] step: [floor((h - 1) / s) + 1]. *)
Definition strided (h s : Z) : Z := (h - 1) / s + 1.

(** A batch of [b] maps of extent [h x w] has more than one value per
    channel whenever the mode requires it. *)
Definition enough_values {mode : Mode} (b h w : Z) : Prop :=
  training = true -> b * h * w <> 1.

(** The two modes: a model is in training mode until [eval()] is called. *)
Definition training_mode : Mode := true.
Definition eval_mode : Mode := false.

(** ** Channel bookkeeping of a pipeline of blocks *)

(** Input and output channel counts of a convolution. *)
Definition conv_io (l : layer) : list (Z * Z) :=
  match l with
  | Conv2d i o _ _ _ => [(i, o)]
  | _ => []
  end.

(** What the transformed path of a block expects and what it delivers: the
    input channels of its first convolution, the output channels of its
    last one. *)
Definition block_in_channels (b : block) : option Z :=
  option_map fst (hd_error (flat_map conv_io (block_res b))).

Definition block_out_channels (b : block) : option Z :=
  option_map snd (hd_error (rev (flat_map conv_io (block_res b)))).

(** Channel check of [blocks] called on a tensor with [cin] channels: every
    block must expect what the previous one delivers; the result is the
    channel count that comes out. *)
Fixpoint channels_through (cin : Z) (bs : list block) : option Z :=
  match bs with
  | [] => Some cin
  | b :: bs' =>
      match block_in_channels b, block_out_channels b with
      | Some i, Some o => if i =? cin then channels_through o bs' else None
      | _, _ => None
      end
  end.

Definition is_plain (b : block) : bool :=
  match b with
  | Plain _ => true
  | Bottleneck _ => false
  end.

(** The width a bottleneck block reduces to: the output channels of its
    first convolution. *)
Definition bottleneck_width (b : block) : option Z :=
  match b with
  | Plain _ => None
  | Bottleneck r =>
      option_map snd (hd_error (flat_map conv_io (BottleneckResidualBlock.res r)))
  end.

(** The blocks that carry a [ShortcutProjection]. *)
Definition projections (bs : list block) : list block :=
  filter (fun b => is_projection (block_shortcut b)) bs.

(** The stages [i > 0] whose width differs from the previous stage's. *)
Definition width_changes (n_channels : list Z) : list nat :=
  filter (fun i => negb (nth (Nat.pred i) n_channels 0 =? nth i n_channels 0))
    (seq 1 (Nat.pred (length n_channels))).

(** The first line of [ResNetBase.forward]: [self.bn(self.conv(x))]. *)
Definition stem_forward {T : Type} {ops : TensorOps T} (self : ResNetBase.t) (x : T)
  : result T :=
  y <- layer_forward (ResNetBase.conv self) x ;;
  layer_forward (ResNetBase.bn self) y.

(** ** The layers a configuration asks for *)

(** The layers of a block, transformed path first. *)
Definition block_layers (b : block) : list layer :=
  block_res b ++ shortcut_layers (block_shortcut b).

(** The layers of the network the configuration describes: the stem, then
    the blocks of [spec_blocks]. *)
Definition network_layers (n_blocks n_channels : list Z)
  (bottlenecks : option (list Z)) (img_channels first_kernel_size : Z)
  : list layer :=
  Conv2d img_channels (width_at n_channels 0) first_kernel_size 2
    (first_kernel_size / 2)
  :: BatchNorm2d (width_at n_channels 0)
  :: flat_map block_layers (spec_blocks n_blocks n_channels bottlenecks).

Definition all_constructible {alloc : Allocator} (ls : list layer) : Prop :=
  forallb constructible ls = true.

(** Number of elements of a tensor of a given shape. *)
Definition numel (s : list Z) : Z := fold_right Z.mul 1 s.

(** A machine that allocates tensors of up to [2^31] elements. *)
Definition small_machine : Allocator := fun s => numel s <=? 2 ^ 31.

(* ================================================================= *)
(** * Properties *)

Section WithAllocator.
Context {alloc : Allocator}.

(** ** The error monad *)

Lemma bind_Ok {A B : Type} (m : result A) (k : A -> result B) (b : B) :
  bind m k = Ok b -> exists a, m = Ok a /\ k a = Ok b.
Proof.
  destruct m as [a | e]; simpl; intros E.
  - exists a. split; [reflexivity | exact E].
  - discriminate E.
Qed.

Lemma assert_Ok (c : bool) (u : unit) : assert c = Ok u -> c = true.
Proof. destruct c; simpl; [reflexivity | discriminate]. Qed.

Lemma index_Ok {A : Type} (l : list A) (i : nat) (a d : A) :
  index l i = Ok a -> nth i l d = a /\ (i < length l)%nat.
Proof.
  unfold index. destruct (nth_error l i) as [a' |] eqn:E; [| discriminate].
  intros [= ->]. split.
  - now apply nth_error_nth.
  - apply nth_error_Some. rewrite E. discriminate.
Qed.

Lemma index_lt {A : Type} (l : list A) (i : nat) (d : A) :
  (i < length l)%nat -> index l i = Ok (nth i l d).
Proof.
  intros L. unfold index.
  destruct (nth_error l i) as [a |] eqn:E.
  - now rewrite (nth_error_nth _ _ d E).
  - apply nth_error_None in E. lia.
Qed.

(** Peels the first command off a successful [bind]. *)
Ltac inv_bind_as H a E :=
  apply bind_Ok in H; destruct H as (a & E & H).

Tactic Notation "inv_bind" hyp(H) :=
  let a := fresh "a" in
  let E := fresh "E" in
  inv_bind_as H a E.

Tactic Notation "inv_bind" hyp(H) "as" ident(a) ident(E) :=
  inv_bind_as H a E.

(** ** The constructors *)

(** Splits the conjunctions of a boolean test that holds. *)
Ltac split_andb :=
  repeat match goal with
         | H : _ && _ = true |- _ => apply andb_prop in H; destruct H
         | H : (0 <=? _) = true |- _ => apply Z.leb_le in H
         end.

Lemma constructible_Conv2d i o k s p :
  constructible (Conv2d i o k s p) = true -> 0 <= i /\ 0 <= o /\ 0 <= k.
Proof.
  unfold constructible, allocatable. cbn [layer_parameters forallb].
  intros C. split_andb. auto.
Qed.

Lemma constructible_BatchNorm2d n :
  constructible (BatchNorm2d n) = true -> 0 <= n.
Proof.
  unfold constructible, allocatable. cbn [layer_parameters forallb].
  intros C. split_andb. auto.
Qed.

Lemma nn_Conv2d_Ok i o k s p l :
  nn_Conv2d i o k s p = Ok l ->
  l = Conv2d i o k s p /\ 0 <= i /\ 0 <= o /\ 0 <= k.
Proof.
  unfold nn_Conv2d. cbv zeta.
  destruct (constructible (Conv2d i o k s p)) eqn:C; [| discriminate].
  intros [= <-]. split; [reflexivity | now apply (constructible_Conv2d i o k s p)].
Qed.

Lemma nn_BatchNorm2d_Ok n l :
  nn_BatchNorm2d n = Ok l -> l = BatchNorm2d n /\ 0 <= n.
Proof.
  unfold nn_BatchNorm2d. cbv zeta.
  destruct (constructible (BatchNorm2d n)) eqn:C; [| discriminate].
  intros [= <-]. split; [reflexivity | now apply constructible_BatchNorm2d].
Qed.

Lemma ShortcutProjection_init_Ok i o s p :
  ShortcutProjection.init i o s = Ok p ->
  p = {| ShortcutProjection.conv := Conv2d i o 1 s 0;
         ShortcutProjection.bn := BatchNorm2d o |} /\ 0 <= i /\ 0 <= o.
Proof.
  unfold ShortcutProjection.init. intros H.
  inv_bind H. apply nn_Conv2d_Ok in E. destruct E as (-> & Hi & Ho & _).
  inv_bind H. apply nn_BatchNorm2d_Ok in E. destruct E as (-> & _).
  injection H as <-. auto.
Qed.

Lemma make_shortcut_Ok i o s sc :
  make_shortcut i o s = Ok sc -> sc = shortcut_of i o s.
Proof.
  unfold make_shortcut, shortcut_of.
  destruct (negb (s =? 1) || negb (i =? o)).
  - intros H. inv_bind H.
    apply ShortcutProjection_init_Ok in E. destruct E as (-> & _).
    now injection H as <-.
  - now intros [= <-].
Qed.

Lemma ResidualBlock_init_Ok i o s b :
  ResidualBlock.init i o s = Ok b ->
  Plain b = residual_block i o s /\ 0 <= i /\ 0 <= o.
Proof.
  unfold ResidualBlock.init. intros H.
  inv_bind H. apply nn_Conv2d_Ok in E. destruct E as (-> & Hi & Ho & _).
  inv_bind H. apply nn_BatchNorm2d_Ok in E. destruct E as (-> & _).
  inv_bind H. apply nn_Conv2d_Ok in E. destruct E as (-> & _).
  inv_bind H. apply nn_BatchNorm2d_Ok in E. destruct E as (-> & _).
  inv_bind H. apply make_shortcut_Ok in E. subst.
  injection H as <-. auto.
Qed.

Lemma BottleneckResidualBlock_init_Ok i w o s b :
  BottleneckResidualBlock.init i w o s = Ok b ->
  Bottleneck b = bottleneck_block i w o s /\ 0 <= i /\ 0 <= w /\ 0 <= o.
Proof.
  unfold BottleneckResidualBlock.init. intros H.
  inv_bind H. apply nn_Conv2d_Ok in E. destruct E as (-> & Hi & Hw & _).
  inv_bind H. apply nn_BatchNorm2d_Ok in E. destruct E as (-> & _).
  inv_bind H. apply nn_Conv2d_Ok in E. destruct E as (-> & _).
  inv_bind H. apply nn_BatchNorm2d_Ok in E. destruct E as (-> & _).
  inv_bind H. apply nn_Conv2d_Ok in E. destruct E as (-> & _ & Ho & _).
  inv_bind H. apply nn_BatchNorm2d_Ok in E. destruct E as (-> & _).
  inv_bind H. apply make_shortcut_Ok in E. subst.
  injection H as <-. auto.
Qed.

(** A block constructor returns the block it describes when all its layers
    can be constructed, and raises otherwise. *)
Lemma block_init_spec m i o s :
  block_init m i o s
  = if forallb constructible (block_layers (built_block m i o s))
    then Ok (built_block m i o s)
    else Raise RuntimeError.
Proof.
  unfold block_init, ResidualBlock.init, BottleneckResidualBlock.init,
    make_shortcut, ShortcutProjection.init, nn_Conv2d, nn_BatchNorm2d,
    block_layers, built_block, residual_block, bottleneck_block, shortcut_of.
  cbv zeta.
  destruct m as [w |], (negb (s =? 1) || negb (i =? o));
    cbn [block_res block_shortcut ResidualBlock.res ResidualBlock.shortcut
         BottleneckResidualBlock.res BottleneckResidualBlock.shortcut
         shortcut_layers ShortcutProjection.conv ShortcutProjection.bn
         app forallb];
    change (constructible ReLU) with true;
    change (constructible Identity) with true;
    repeat match goal with
           | |- context [constructible ?l] => destruct (constructible l)
           end;
    reflexivity.
Qed.

(** ** The loop of [ResNetBase.__init__] *)

Section Builder.
Variable n_blocks n_channels : list Z.
Variable bottlenecks : option (list Z).

Lemma new_block_Ok idx i o s b :
  ResNetBase.new_block bottlenecks idx i o s = Ok b ->
  b = built_block (bottleneck_at bottlenecks idx) i o s.
Proof.
  unfold ResNetBase.new_block, bottleneck_at.
  destruct bottlenecks as [bs |]; simpl; intros H.
  - inv_bind H. apply (index_Ok _ _ _ 0) in E. destruct E as (<- & _).
    inv_bind H. apply BottleneckResidualBlock_init_Ok in E.
    destruct E as (E & _). now injection H as <-.
  - inv_bind H. apply ResidualBlock_init_Ok in E.
    destruct E as (E & _). now injection H as <-.
Qed.

Lemma new_block_spec idx i o s :
  bottleneck_ready bottlenecks idx ->
  ResNetBase.new_block bottlenecks idx i o s
  = if forallb constructible
         (block_layers (built_block (bottleneck_at bottlenecks idx) i o s))
    then Ok (built_block (bottleneck_at bottlenecks idx) i o s)
    else Raise RuntimeError.
Proof.
  intros Hb. rewrite <- block_init_spec.
  unfold ResNetBase.new_block, bottleneck_at, bottleneck_ready in *.
  destruct bottlenecks as [bs |]; [| reflexivity].
  rewrite (index_lt bs idx 0 (Hb bs eq_refl)). reflexivity.
Qed.

Lemma inner_loop_Ok k idx ch blocks bl :
  ResNetBase.inner_loop bottlenecks k idx ch blocks = Ok bl ->
  bl = blocks ++ repeat (built_block (bottleneck_at bottlenecks idx) ch ch 1) k.
Proof.
  revert blocks. induction k as [| k IH]; simpl; intros blocks H.
  - injection H as <-. now rewrite app_nil_r.
  - inv_bind H. apply new_block_Ok in E. subst a.
    apply IH in H. rewrite H, <- app_assoc. reflexivity.
Qed.

Lemma inner_loop_spec k idx ch : forall blocks,
  bottleneck_ready bottlenecks idx ->
  ResNetBase.inner_loop bottlenecks k idx ch blocks
  = if forallb constructible
         (flat_map block_layers
            (repeat (built_block (bottleneck_at bottlenecks idx) ch ch 1) k))
    then Ok (blocks ++ repeat (built_block (bottleneck_at bottlenecks idx) ch ch 1) k)
    else Raise RuntimeError.
Proof.
  induction k as [| k IH]; intros blocks Hb;
    cbn [ResNetBase.inner_loop repeat flat_map].
  - cbn [forallb]. now rewrite app_nil_r.
  - rewrite new_block_spec by exact Hb. rewrite forallb_app.
    destruct (forallb constructible
                (block_layers (built_block (bottleneck_at bottlenecks idx) ch ch 1)));
      cbn [bind andb]; [| reflexivity].
    rewrite IH by exact Hb. now rewrite <- app_assoc.
Qed.

Lemma stage_Ok i ch blocks prev bl prev' :
  ResNetBase.stage n_blocks bottlenecks i ch (blocks, prev) = Ok (bl, prev') ->
  prev' = ch /\
  bl = blocks ++ appended n_blocks bottlenecks i prev ch (Nat.eqb (length blocks) 0).
Proof.
  unfold ResNetBase.stage, appended. intros H.
  inv_bind H. apply new_block_Ok in E. subst a.
  inv_bind H. apply (index_Ok _ _ _ 0) in E. destruct E as (<- & _).
  inv_bind H. apply inner_loop_Ok in E. subst a.
  injection H as <- <-. split; [reflexivity |].
  rewrite <- app_assoc. reflexivity.
Qed.

Lemma stage_spec i ch blocks prev :
  bottleneck_ready bottlenecks i -> (i < length n_blocks)%nat ->
  ResNetBase.stage n_blocks bottlenecks i ch (blocks, prev)
  = if forallb constructible
         (flat_map block_layers
            (appended n_blocks bottlenecks i prev ch (Nat.eqb (length blocks) 0)))
    then Ok (blocks ++ appended n_blocks bottlenecks i prev ch
                         (Nat.eqb (length blocks) 0), ch)
    else Raise RuntimeError.
Proof.
  intros Hb Hi. unfold ResNetBase.stage, appended. cbn [flat_map].
  rewrite new_block_spec by exact Hb. rewrite forallb_app.
  destruct (forallb constructible
              (block_layers
                 (built_block (bottleneck_at bottlenecks i) prev ch
                    (if Nat.eqb (length blocks) 0 then 2 else 1))));
    cbn [bind andb]; [| reflexivity].
  rewrite (index_lt n_blocks i 0 Hi). cbn [bind].
  rewrite inner_loop_spec by exact Hb. unfold count_at.
  destruct (forallb constructible
              (flat_map block_layers
                 (repeat (built_block (bottleneck_at bottlenecks i) ch ch 1)
                    (Z.to_nat (nth i n_blocks 0 - 1)))));
    cbn [bind]; [| reflexivity].
  now rewrite <- app_assoc.
Qed.

Lemma skipn_cons_nth (l : list Z) i ch chs :
  skipn i l = ch :: chs -> nth i l 0 = ch /\ skipn (S i) l = chs.
Proof.
  revert l. induction i as [| i IH]; intros [| x l]; simpl; try discriminate.
  - intros [= -> ->]. auto.
  - apply IH.
Qed.

Lemma appended_spec_stage i ch blocks prev chs :
  loop_inv n_channels i (ch :: chs) blocks prev ->
  appended n_blocks bottlenecks i prev ch (Nat.eqb (length blocks) 0)
  = spec_stage n_blocks n_channels bottlenecks i.
Proof.
  intros (Hs & -> & Hz). apply skipn_cons_nth in Hs. destruct Hs as (Hc & _).
  unfold appended, spec_stage, spec_first_block, spec_inner_block, width_at.
  rewrite Hc.
  replace (Nat.eqb (length blocks) 0) with (Nat.eqb i 0); [reflexivity |].
  destruct (Nat.eqb_spec i 0), (Nat.eqb_spec (length blocks) 0);
    try reflexivity; exfalso; tauto.
Qed.

Lemma loop_inv_step i ch chs blocks prev :
  loop_inv n_channels i (ch :: chs) blocks prev ->
  loop_inv n_channels (S i) chs (blocks ++ spec_stage n_blocks n_channels bottlenecks i) ch.
Proof.
  intros (Hs & _ & _). apply skipn_cons_nth in Hs. destruct Hs as (Hc & Hs).
  repeat split.
  - exact Hs.
  - unfold prev_width. simpl. now rewrite Hc.
  - rewrite length_app. unfold spec_stage. simpl. lia.
  - discriminate.
Qed.

Lemma stages_Ok chs : forall i blocks prev bl prev',
  loop_inv n_channels i chs blocks prev ->
  ResNetBase.stages n_blocks bottlenecks i chs (blocks, prev) = Ok (bl, prev') ->
  bl = blocks
       ++ concat (map (spec_stage n_blocks n_channels bottlenecks) (seq i (length chs))).
Proof.
  induction chs as [| ch chs IH]; intros i blocks prev bl prev' Inv H;
    cbn [ResNetBase.stages length seq map concat] in *.
  - injection H as <- _. now rewrite app_nil_r.
  - inv_bind H. destruct a as (bl1 & prev1).
    apply stage_Ok in E. destruct E as (-> & ->).
    rewrite (appended_spec_stage _ _ _ _ _ Inv) in H.
    apply IH in H; [| now apply (loop_inv_step _ _ _ _ _ Inv)].
    rewrite H, <- app_assoc. reflexivity.
Qed.

Lemma stages_spec chs : forall i blocks prev,
  loop_inv n_channels i chs blocks prev ->
  (forall j, (i <= j < i + length chs)%nat ->
             bottleneck_ready bottlenecks j /\ (j < length n_blocks)%nat) ->
  ResNetBase.stages n_blocks bottlenecks i chs (blocks, prev)
  = if forallb constructible
         (flat_map block_layers
            (concat (map (spec_stage n_blocks n_channels bottlenecks)
                       (seq i (length chs)))))
    then Ok (blocks
             ++ concat (map (spec_stage n_blocks n_channels bottlenecks)
                          (seq i (length chs))),
             prev_width n_channels (i + length chs))
    else Raise RuntimeError.
Proof.
  induction chs as [| ch chs IH]; intros i blocks prev Inv Hj;
    cbn [ResNetBase.stages length seq map concat].
  - cbn [flat_map forallb]. rewrite app_nil_r, Nat.add_0_r.
    now destruct Inv as (_ & -> & _).
  - destruct (Hj i ltac:(simpl; lia)) as (Hb & Hi).
    rewrite stage_spec by assumption.
    rewrite (appended_spec_stage _ _ _ _ _ Inv).
    rewrite flat_map_app, forallb_app.
    destruct (forallb constructible
                (flat_map block_layers (spec_stage n_blocks n_channels bottlenecks i)));
      cbn [bind andb]; [| reflexivity].
    rewrite (IH (S i) _ ch (loop_inv_step _ _ _ _ _ Inv))
      by (intros j Lj; apply Hj; simpl; lia).
    now rewrite <- app_assoc, Nat.add_succ_r.
Qed.
End Builder.

(** A successful constructor call passed both assertions, found
    [n_channels[0]], and laid the blocks out as [spec_blocks]. *)
Lemma init_Ok n_blocks n_channels bottlenecks img k net :
  ResNetBase.init n_blocks n_channels bottlenecks img k = Ok net ->
  length n_blocks = length n_channels /\
  (forall bs, bottlenecks = Some bs -> length bs = length n_channels) /\
  n_channels <> [] /\
  ResNetBase.conv net = Conv2d img (width_at n_channels 0) k 2 (k / 2) /\
  ResNetBase.bn net = BatchNorm2d (width_at n_channels 0) /\
  0 <= k /\
  ResNetBase.blocks net = spec_blocks n_blocks n_channels bottlenecks.
Proof.
  unfold ResNetBase.init. intros H.
  inv_bind H as u1 L1. apply assert_Ok, Nat.eqb_eq in L1.
  inv_bind H as u2 L2. apply assert_Ok in L2.
  inv_bind H as c0 E0. apply (index_Ok _ _ _ 0) in E0. destruct E0 as (<- & L0).
  inv_bind H as cv Ec. apply nn_Conv2d_Ok in Ec. destruct Ec as (-> & _ & _ & Hk).
  inv_bind H as c1 E1. apply (index_Ok _ _ _ 0) in E1. destruct E1 as (<- & _).
  inv_bind H as bn Eb. apply nn_BatchNorm2d_Ok in Eb. destruct Eb as (-> & _).
  inv_bind H as c2 E2. apply (index_Ok _ _ _ 0) in E2. destruct E2 as (<- & _).
  inv_bind H as st E. destruct st as (bl & prev').
  apply stages_Ok with (n_channels := n_channels) in E.
  - injection H as <-. simpl in *. repeat split; try assumption; try reflexivity.
    + intros bs ->. now apply Nat.eqb_eq.
    + intros ->. simpl in L0. lia.
  - repeat split; reflexivity.
Qed.

(** On a non-empty configuration of consistent lengths the constructor
    returns the network the configuration describes when all its layers can
    be constructed, and raises otherwise. *)
Lemma init_spec n_blocks n_channels bottlenecks img k :
  length n_blocks = length n_channels ->
  (forall bs, bottlenecks = Some bs -> length bs = length n_channels) ->
  n_channels <> [] ->
  ResNetBase.init n_blocks n_channels bottlenecks img k
  = if forallb constructible (network_layers n_blocks n_channels bottlenecks img k)
    then Ok {| ResNetBase.conv := Conv2d img (width_at n_channels 0) k 2 (k / 2);
               ResNetBase.bn := BatchNorm2d (width_at n_channels 0);
               ResNetBase.blocks := spec_blocks n_blocks n_channels bottlenecks |}
    else Raise RuntimeError.
Proof.
  intros L1 L2 Hne. unfold ResNetBase.init.
  rewrite L1, Nat.eqb_refl. cbn [assert bind].
  assert (A2 : match bottlenecks with
               | Some bs => Nat.eqb (length bs) (length n_channels)
               | None => true
               end = true).
  { destruct bottlenecks as [bs |]; [| reflexivity].
    rewrite (L2 bs eq_refl). apply Nat.eqb_refl. }
  rewrite A2. cbn [assert bind].
  rewrite (index_lt n_channels 0 0)
    by (destruct n_channels; [congruence | simpl; lia]).
  cbn [bind]. unfold network_layers, nn_Conv2d, nn_BatchNorm2d. cbv zeta.
  cbn [forallb]. fold (width_at n_channels 0).
  destruct (constructible (Conv2d img (width_at n_channels 0) k 2 (k / 2)));
    cbn [bind andb]; [| reflexivity].
  destruct (constructible (BatchNorm2d (width_at n_channels 0)));
    cbn [bind andb]; [| reflexivity].
  rewrite (stages_spec n_blocks n_channels bottlenecks n_channels 0 []).
  - unfold spec_blocks.
    destruct (forallb constructible
                (flat_map block_layers
                   (concat (map (spec_stage n_blocks n_channels bottlenecks)
                              (seq 0 (length n_channels))))));
      reflexivity.
  - repeat split; reflexivity.
  - intros j Lj. split; [| lia]. intros bs Hbs. rewrite (L2 bs Hbs). lia.
Qed.

Lemma init_constructible n_blocks n_channels bottlenecks img k :
  length n_blocks = length n_channels ->
  (forall bs, bottlenecks = Some bs -> length bs = length n_channels) ->
  n_channels <> [] ->
  all_constructible (network_layers n_blocks n_channels bottlenecks img k) ->
  exists net, ResNetBase.init n_blocks n_channels bottlenecks img k = Ok net.
Proof.
  intros L1 L2 Hne C. rewrite init_spec by assumption.
  unfold all_constructible in C. rewrite C. eexists. reflexivity.
Qed.

Lemma init_needs n_blocks n_channels bottlenecks img k net :
  ResNetBase.init n_blocks n_channels bottlenecks img k = Ok net ->
  all_constructible (network_layers n_blocks n_channels bottlenecks img k).
Proof.
  intros Built.
  destruct (init_Ok _ _ _ _ _ _ Built) as (L1 & L2 & Hne & _).
  rewrite init_spec in Built by assumption. unfold all_constructible.
  now destruct (forallb constructible
                  (network_layers n_blocks n_channels bottlenecks img k)).
Qed.

(** ** Positions in a concatenation of consecutive segments *)

Section Segments.
Context {A : Type}.
Variable f : nat -> list A.

(** Total length of the segments [a .. i-1]. *)
Let before (a i : nat) : nat := length (concat (map f (seq a (i - a)))).

Lemma before_self a : before a a = 0%nat.
Proof. unfold before. now rewrite Nat.sub_diag. Qed.

Lemma before_next a i :
  (a < i)%nat -> before a i = (length (f a) + before (S a) i)%nat.
Proof.
  intros L. unfold before.
  replace (i - a)%nat with (S (i - S a)) by lia.
  simpl. now rewrite length_app.
Qed.

Lemma segment_nth n : forall a i j x,
  (a <= i < a + n)%nat ->
  nth_error (f i) j = Some x ->
  nth_error (concat (map f (seq a n))) (before a i + j) = Some x.
Proof.
  induction n as [| n IH]; intros a i j x L Hx; [lia |].
  simpl. destruct (Nat.eq_dec i a) as [-> | Na].
  - rewrite before_self. simpl.
    rewrite nth_error_app1; [exact Hx |].
    apply nth_error_Some. rewrite Hx. discriminate.
  - rewrite before_next by lia.
    rewrite nth_error_app2 by lia.
    replace (length (f a) + before (S a) i + j - length (f a))%nat
      with (before (S a) i + j)%nat by lia.
    apply IH; [lia | exact Hx].
Qed.

Lemma segment_inv n : forall a k x,
  nth_error (concat (map f (seq a n))) k = Some x ->
  exists i j, (a <= i < a + n)%nat /\ k = (before a i + j)%nat
              /\ nth_error (f i) j = Some x.
Proof.
  induction n as [| n IH]; intros a k x Hx; simpl in Hx.
  - destruct k; discriminate.
  - destruct (Nat.lt_ge_cases k (length (f a))) as [Lk | Lk].
    + rewrite nth_error_app1 in Hx by exact Lk.
      exists a, k. rewrite before_self. repeat split; try lia. exact Hx.
    + rewrite nth_error_app2 in Hx by exact Lk.
      apply IH in Hx. destruct Hx as (i & j & L & Ek & Hx).
      exists i, j. rewrite before_next by lia. repeat split; try lia. exact Hx.
Qed.

Lemma segment_length n a :
  length (concat (map f (seq a n))) = before a (a + n).
Proof. unfold before. now replace (a + n - a)%nat with n by lia. Qed.
End Segments.

(** ** Where each stage sits in [blocks] *)

Lemma map_nth_seq (l : list Z) : forall i,
  (i <= length l)%nat -> map (fun t => nth t l 0) (seq 0 i) = firstn i l.
Proof.
  induction l as [| x l IH]; intros [| i] L; simpl in *; try reflexivity; try lia.
  rewrite <- seq_shift, map_map. simpl. f_equal. apply IH. lia.
Qed.

Lemma length_concat_sum {A : Type} (ls : list (list A)) :
  length (concat ls) = list_sum (map (@length A) ls).
Proof.
  induction ls as [| l ls IH]; simpl; [reflexivity |].
  now rewrite length_app, IH.
Qed.

Section Positions.
Variable n_blocks n_channels : list Z.
Variable bottlenecks : option (list Z).

Local Abbreviation stage_of := (spec_stage n_blocks n_channels bottlenecks).

Lemma length_spec_stage i :
  length (stage_of i) = stage_len (count_at n_blocks i).
Proof. unfold spec_stage, stage_len. simpl. now rewrite repeat_length. Qed.

Lemma stages_before i :
  (i <= length n_blocks)%nat ->
  length (concat (map stage_of (seq 0 (i - 0)))) = stage_start n_blocks i.
Proof.
  intros L. rewrite Nat.sub_0_r, length_concat_sum, map_map.
  unfold stage_start. rewrite <- (map_nth_seq n_blocks i L), map_map.
  apply f_equal, map_ext. intros t. apply length_spec_stage.
Qed.

Lemma nth_spec_stage_first i :
  nth_error (stage_of i) 0 = Some (spec_first_block n_channels bottlenecks i).
Proof. reflexivity. Qed.

Lemma nth_spec_stage_inner i j :
  (0 < j < stage_len (count_at n_blocks i))%nat ->
  nth_error (stage_of i) j = Some (spec_inner_block n_channels bottlenecks i).
Proof.
  intros L. destruct j as [| j]; [lia |]. unfold spec_stage, stage_len in *.
  simpl. apply nth_error_repeat. lia.
Qed.

Lemma nth_spec_stage i j b :
  nth_error (stage_of i) j = Some b ->
  (j = 0%nat /\ b = spec_first_block n_channels bottlenecks i) \/
  ((0 < j < stage_len (count_at n_blocks i))%nat
   /\ b = spec_inner_block n_channels bottlenecks i).
Proof.
  intros Hb. destruct j as [| j].
  - left. simpl in Hb. injection Hb as <-. auto.
  - right.
    assert (L : (S j < length (stage_of i))%nat).
    { apply nth_error_Some. rewrite Hb. discriminate. }
    rewrite length_spec_stage in L. split; [lia |].
    rewrite nth_spec_stage_inner in Hb by lia. now injection Hb as <-.
Qed.

Variables (img k : Z) (net : ResNetBase.t).
Hypothesis Built : ResNetBase.init n_blocks n_channels bottlenecks img k = Ok net.

Lemma blocks_at i j b :
  (i < length n_channels)%nat ->
  nth_error (stage_of i) j = Some b ->
  nth_error (ResNetBase.blocks net) (stage_start n_blocks i + j) = Some b.
Proof.
  intros L Hb. destruct (init_Ok _ _ _ _ _ _ Built) as (L1 & _ & _ & _ & _ & _ & ->).
  unfold spec_blocks. rewrite <- stages_before by lia.
  apply segment_nth; [lia | exact Hb].
Qed.

Lemma blocks_inv p b :
  nth_error (ResNetBase.blocks net) p = Some b ->
  exists i j, (i < length n_channels)%nat /\ p = (stage_start n_blocks i + j)%nat
              /\ nth_error (stage_of i) j = Some b.
Proof.
  destruct (init_Ok _ _ _ _ _ _ Built) as (L1 & _ & _ & _ & _ & _ & ->).
  unfold spec_blocks. intros Hb. apply segment_inv in Hb.
  destruct Hb as (i & j & L & -> & Hb). exists i, j.
  rewrite stages_before by lia. repeat split; [lia | exact Hb].
Qed.

Lemma blocks_length :
  length (ResNetBase.blocks net) = stage_start n_blocks (length n_blocks).
Proof.
  destruct (init_Ok _ _ _ _ _ _ Built) as (L1 & _ & _ & _ & _ & _ & ->).
  unfold spec_blocks. rewrite segment_length, <- L1. simpl.
  rewrite <- stages_before by lia. now rewrite Nat.sub_0_r.
Qed.

Lemma blocks_head :
  exists rest,
    ResNetBase.blocks net = spec_first_block n_channels bottlenecks 0 :: rest.
Proof.
  destruct (init_Ok _ _ _ _ _ _ Built) as (_ & _ & Hne & _ & _ & _ & ->).
  unfold spec_blocks. destruct n_channels as [| c cs]; [congruence |].
  simpl. eexists. reflexivity.
Qed.
End Positions.

Lemma stage_start_0 n_blocks : stage_start n_blocks 0 = 0%nat.
Proof. reflexivity. Qed.

Lemma stage_start_S n_blocks i :
  (i < length n_blocks)%nat ->
  stage_start n_blocks (S i)
  = (stage_start n_blocks i + stage_len (count_at n_blocks i))%nat.
Proof.
  unfold stage_start, count_at. revert i.
  induction n_blocks as [| n l IH]; intros i L; simpl in L; [lia |].
  destruct i as [| i].
  - cbn [firstn map nth]. unfold list_sum. cbn [fold_right]. lia.
  - change (firstn (S (S i)) (n :: l)) with (n :: firstn (S i) l).
    change (firstn (S i) (n :: l)) with (n :: firstn i l).
    cbn [map nth]. unfold list_sum in *. cbn [fold_right].
    rewrite IH by lia. lia.
Qed.

Lemma stage_start_next_le n_blocks i i' :
  (i < i' <= length n_blocks)%nat ->
  (stage_start n_blocks (S i) <= stage_start n_blocks i')%nat.
Proof.
  intros (Lt & Le). induction Lt as [| m Lt IH]; [lia |].
  rewrite (stage_start_S n_blocks m) by lia.
  assert (m <= length n_blocks)%nat by lia. lia.
Qed.

(** A position belongs to one stage only. *)
Lemma stage_position_unique n_blocks i j i' :
  (i < length n_blocks)%nat -> (i' < length n_blocks)%nat ->
  (j < stage_len (count_at n_blocks i))%nat ->
  (stage_start n_blocks i + j)%nat = stage_start n_blocks i' ->
  i = i' /\ j = 0%nat.
Proof.
  intros Li Li' Lj E.
  destruct (Nat.lt_trichotomy i i') as [Lt | [-> | Lt]].
  - pose proof (stage_start_next_le n_blocks i i' ltac:(lia)) as M.
    rewrite stage_start_S in M by lia. lia.
  - lia.
  - pose proof (stage_start_next_le n_blocks i' i ltac:(lia)) as M.
    rewrite stage_start_S in M by lia. unfold stage_len in M. lia.
Qed.

Lemma stage_start_pos n_blocks i :
  (0 < i <= length n_blocks)%nat -> (0 < stage_start n_blocks i)%nat.
Proof.
  intros L. destruct i as [| i]; [lia |].
  rewrite stage_start_S by lia. unfold stage_len. lia.
Qed.

(** ** Strides and shortcuts of the constructed blocks *)

Lemma block_shortcut_built w i o s :
  block_shortcut (built_block w i o s) = shortcut_of i o s.
Proof. destruct w; reflexivity. Qed.

Lemma is_projection_shortcut_of i o s :
  is_projection (shortcut_of i o s) = negb (s =? 1) || negb (i =? o).
Proof.
  unfold shortcut_of. now destruct (negb (s =? 1) || negb (i =? o)).
Qed.

Lemma shortcut_of_same i : shortcut_of i i 1 = IdentityShortcut.
Proof. unfold shortcut_of. rewrite !Z.eqb_refl. reflexivity. Qed.

Lemma conv_strides_stride_1 w i o :
  Forall (eq 1) (conv_strides (built_block w i o 1)).
Proof.
  unfold conv_strides. rewrite block_shortcut_built. unfold shortcut_of.
  destruct w, (i =? o); simpl; repeat constructor.
Qed.

Lemma conv_strides_stride_2 w i o :
  In 2 (conv_strides (built_block w i o 2)).
Proof. destruct w; simpl; auto. Qed.

Lemma spec_first_block_later n_channels bottlenecks i :
  i <> 0%nat ->
  spec_first_block n_channels bottlenecks i
  = built_block (bottleneck_at bottlenecks i)
      (prev_width n_channels i) (width_at n_channels i) 1.
Proof.
  intros Hi. unfold spec_first_block.
  destruct (Nat.eqb_spec i 0); [contradiction | reflexivity].
Qed.

(** ** Counting blocks *)

Lemma stage_len_max n : Z.of_nat (stage_len n) = Z.max 1 n.
Proof. unfold stage_len. lia. Qed.

Lemma total_blocks_max (l : list Z) :
  Z.of_nat (list_sum (map stage_len l)) = sum (map (Z.max 1) l).
Proof.
  unfold sum, list_sum. induction l as [| n l IH]; [reflexivity |].
  cbn [map fold_right]. rewrite Nat2Z.inj_add, IH, stage_len_max. reflexivity.
Qed.

Lemma sum_max_positive (l : list Z) :
  Forall (fun n => 0 < n) l -> sum (map (Z.max 1) l) = sum l.
Proof.
  unfold sum. induction 1 as [| n l Hn _ IH]; [reflexivity |].
  cbn [map fold_right]. rewrite IH. lia.
Qed.

(* ================================================================= *)
(** * The claims *)

(** C1. In a network built by [ResNetBase], whatever the configuration,
    stride 2 is used by exactly one block, the first one of the list (the
    first block of the first stage); the first block of every later stage,
    and every non-first block of every stage, has all its strides equal
    to 1. *)
Theorem C1_stride_2_only_at_first_block
  (n_blocks n_channels : list Z) (bottlenecks : option (list Z))
  (img_channels first_kernel_size : Z) (net : ResNetBase.t) :
  ResNetBase.init n_blocks n_channels bottlenecks img_channels first_kernel_size
  = Ok net ->
  (exists rest,
      ResNetBase.blocks net
      = built_block (bottleneck_at bottlenecks 0)
          (width_at n_channels 0) (width_at n_channels 0) 2 :: rest
      /\ In 2 (conv_strides (built_block (bottleneck_at bottlenecks 0)
                               (width_at n_channels 0) (width_at n_channels 0) 2))
      /\ Forall (fun b => Forall (eq 1) (conv_strides b)) rest)
  /\ (forall i, (0 < i < length n_channels)%nat ->
        exists b, nth_error (ResNetBase.blocks net) (stage_start n_blocks i) = Some b
                  /\ b = built_block (bottleneck_at bottlenecks i)
                           (width_at n_channels (i - 1)) (width_at n_channels i) 1
                  /\ Forall (eq 1) (conv_strides b))
  /\ (forall i j, (i < length n_channels)%nat ->
        (0 < j < stage_len (count_at n_blocks i))%nat ->
        exists b, nth_error (ResNetBase.blocks net) (stage_start n_blocks i + j) = Some b
                  /\ b = built_block (bottleneck_at bottlenecks i)
                           (width_at n_channels i) (width_at n_channels i) 1
                  /\ Forall (eq 1) (conv_strides b)).
Proof.
  intros Built.
  destruct (init_Ok _ _ _ _ _ _ Built) as (L1 & _ & _ & _ & _ & _ & _).
  split; [| split].
  - destruct (blocks_head _ _ _ _ _ _ Built) as (rest & Eq).
    exists rest. split; [exact Eq |]. split; [apply conv_strides_stride_2 |].
    apply Forall_forall. intros b Hb.
    apply In_nth_error in Hb. destruct Hb as (p & Hb).
    assert (Hp : nth_error (ResNetBase.blocks net) (S p) = Some b)
      by (rewrite Eq; exact Hb).
    apply (blocks_inv _ _ _ _ _ _ Built) in Hp.
    destruct Hp as (i & j & Li & Ep & Hj).
    apply nth_spec_stage in Hj. destruct Hj as [(-> & ->) | (Lj & ->)].
    + assert (Hi : i <> 0%nat).
      { intros ->. rewrite stage_start_0 in Ep. lia. }
      rewrite spec_first_block_later by exact Hi. apply conv_strides_stride_1.
    + apply conv_strides_stride_1.
  - intros i Li. eexists. split; [| split].
    + rewrite <- (Nat.add_0_r (stage_start n_blocks i)).
      apply (blocks_at _ _ _ _ _ _ Built); [lia | apply nth_spec_stage_first].
    + rewrite spec_first_block_later by lia.
      unfold prev_width. now rewrite Nat.sub_1_r.
    + rewrite spec_first_block_later by lia. apply conv_strides_stride_1.
  - intros i j Li Lj. eexists. split; [| split].
    + apply (blocks_at _ _ _ _ _ _ Built); [lia |].
      apply nth_spec_stage_inner. exact Lj.
    + reflexivity.
    + apply conv_strides_stride_1.
Qed.

(** C3, as amended. For every pair of non-empty lists of positive integers
    of equal length, provided the library can allocate the parameters of
    every layer of the network they describe, the constructor (with its
    default arguments) succeeds; the blocks are, stage after stage, one
    block from the previous width to [n_channels[i]] followed by
    [n_blocks[i] - 1] blocks that keep [n_channels[i]]; and their number is
    [sum(n_blocks)]. *)
Theorem C3_build_succeeds_with_sum_blocks (n_blocks n_channels : list Z) :
  n_channels <> [] ->
  length n_blocks = length n_channels ->
  Forall (fun n => 0 < n) n_blocks ->
  Forall (fun c => 0 < c) n_channels ->
  all_constructible (network_layers n_blocks n_channels None 3 7) ->
  exists net,
    ResNetBase.init_default n_blocks n_channels = Ok net
    /\ ResNetBase.blocks net = spec_blocks n_blocks n_channels None
    /\ Z.of_nat (length (ResNetBase.blocks net)) = sum n_blocks.
Proof.
  intros Hne L Hn Hc Ha. unfold ResNetBase.init_default.
  destruct (init_constructible n_blocks n_channels None 3 7) as (net & Built);
    try assumption; [discriminate |].
  exists net. split; [exact Built |]. split.
  - now destruct (init_Ok _ _ _ _ _ _ Built) as (_ & _ & _ & _ & _ & _ & ->).
  - rewrite (blocks_length _ _ _ _ _ _ Built). unfold stage_start.
    rewrite firstn_all, total_blocks_max. now apply sum_max_positive.
Qed.

(** C4. A configuration whose [n_blocks] and [n_channels] differ in length,
    or whose [bottlenecks] list is given with a length other than that of
    [n_channels], makes the constructor fail on one of its two assertions
    (the failure the design document calls a configuration error): no
    network is returned. *)
Theorem C4_length_mismatch_raises
  (n_blocks n_channels : list Z) (bottlenecks : option (list Z))
  (img_channels first_kernel_size : Z) :
  length n_blocks <> length n_channels
  \/ (exists bs, bottlenecks = Some bs /\ length bs <> length n_channels) ->
  ResNetBase.init n_blocks n_channels bottlenecks img_channels first_kernel_size
  = Raise AssertionError.
Proof.
  intros Hm. unfold ResNetBase.init.
  destruct (Nat.eqb_spec (length n_blocks) (length n_channels)) as [L | L];
    [| reflexivity].
  destruct Hm as [Hm | (bs & -> & Hm)]; [contradiction |].
  destruct (Nat.eqb_spec (length bs) (length n_channels)); [contradiction |].
  reflexivity.
Qed.

(** C9. Whatever the block counts, a built network has
    [max(1, n_blocks[i])] blocks for stage [i], hence the sum of these in
    total; in particular a stage whose count is zero still consists of
    exactly one block, its first block, and the next stage starts right
    after it. *)
Theorem C9_zero_count_stage_has_one_block
  (n_blocks n_channels : list Z) (bottlenecks : option (list Z))
  (img_channels first_kernel_size : Z) (net : ResNetBase.t) :
  ResNetBase.init n_blocks n_channels bottlenecks img_channels first_kernel_size
  = Ok net ->
  Z.of_nat (length (ResNetBase.blocks net)) = sum (map (Z.max 1) n_blocks)
  /\ (forall i, nth_error n_blocks i = Some 0 ->
        nth_error (ResNetBase.blocks net) (stage_start n_blocks i)
        = Some (spec_first_block n_channels bottlenecks i)
        /\ stage_start n_blocks (S i) = S (stage_start n_blocks i)).
Proof.
  intros Built.
  destruct (init_Ok _ _ _ _ _ _ Built) as (L1 & _ & _ & _ & _ & _ & _).
  split.
  - rewrite (blocks_length _ _ _ _ _ _ Built). unfold stage_start.
    rewrite firstn_all. apply total_blocks_max.
  - intros i Hi.
    assert (Li : (i < length n_blocks)%nat).
    { apply nth_error_Some. rewrite Hi. discriminate. }
    split.
    + rewrite <- (Nat.add_0_r (stage_start n_blocks i)).
      apply (blocks_at _ _ _ _ _ _ Built); [lia | apply nth_spec_stage_first].
    + rewrite stage_start_S by exact Li. unfold count_at.
      rewrite (nth_error_nth _ _ 0 Hi). unfold stage_len. simpl. lia.
Qed.

(** C10. In a built network, a block has a [ShortcutProjection] exactly when
    it is the first block of the list or the first block of a stage [i > 0]
    whose width differs from the previous stage's; and when stage [i > 0]
    keeps the previous width, every block of that stage, the first one
    included, is built with stride 1 from and to that width and has the
    identity as its shortcut. *)
Theorem C10_projection_only_where_width_changes
  (n_blocks n_channels : list Z) (bottlenecks : option (list Z))
  (img_channels first_kernel_size : Z) (net : ResNetBase.t) :
  ResNetBase.init n_blocks n_channels bottlenecks img_channels first_kernel_size
  = Ok net ->
  (forall i, (0 < i < length n_channels)%nat ->
     width_at n_channels i = width_at n_channels (i - 1) ->
     forall j, (j < stage_len (count_at n_blocks i))%nat ->
       exists b, nth_error (ResNetBase.blocks net) (stage_start n_blocks i + j) = Some b
                 /\ b = built_block (bottleneck_at bottlenecks i)
                          (width_at n_channels i) (width_at n_channels i) 1
                 /\ block_shortcut b = IdentityShortcut)
  /\ (forall p b, nth_error (ResNetBase.blocks net) p = Some b ->
        (is_projection (block_shortcut b) = true <->
         p = 0%nat
         \/ exists i, (0 < i < length n_channels)%nat
                      /\ p = stage_start n_blocks i
                      /\ width_at n_channels i <> width_at n_channels (i - 1))).
Proof.
  intros Built.
  destruct (init_Ok _ _ _ _ _ _ Built) as (L1 & _ & _ & _ & _ & _ & _).
  split.
  - intros i Li Hw j Lj.
    exists (built_block (bottleneck_at bottlenecks i)
              (width_at n_channels i) (width_at n_channels i) 1).
    split; [| split].
    + apply (blocks_at _ _ _ _ _ _ Built); [lia |].
      destruct j as [| j].
      * rewrite nth_spec_stage_first, spec_first_block_later by lia.
        unfold prev_width. rewrite <- Nat.sub_1_r. unfold width_at in *.
        now rewrite <- Hw.
      * apply nth_spec_stage_inner. lia.
    + reflexivity.
    + rewrite block_shortcut_built. apply shortcut_of_same.
  - intros p b Hb.
    destruct (blocks_inv _ _ _ _ _ _ Built _ _ Hb) as (i & j & Li & -> & Hj).
    apply nth_spec_stage in Hj. destruct Hj as [(-> & ->) | (Lj & ->)].
    + rewrite Nat.add_0_r. destruct (Nat.eq_dec i 0) as [-> | Hi].
      * split; [now left |]. intros _. unfold spec_first_block.
        rewrite block_shortcut_built, is_projection_shortcut_of. reflexivity.
      * rewrite spec_first_block_later by exact Hi.
        rewrite block_shortcut_built, is_projection_shortcut_of.
        unfold prev_width. rewrite <- Nat.sub_1_r. simpl. split.
        -- intros Hp. right. exists i. repeat split; try lia.
           intros Hw. unfold width_at in Hw, Hp.
           rewrite Hw, Z.eqb_refl in Hp. discriminate.
        -- intros [Hp | (i' & Li' & Ep & Hw)].
           ++ pose proof (stage_start_pos n_blocks i). lia.
           ++ destruct (stage_position_unique n_blocks i 0 i') as (<- & _);
                try lia; [unfold stage_len; lia |].
              unfold width_at in *.
              destruct (Z.eqb_spec (nth (i - 1) n_channels 0) (nth i n_channels 0));
                [congruence | reflexivity].
    + unfold spec_inner_block.
      rewrite block_shortcut_built, shortcut_of_same. simpl. split; [discriminate |].
      intros [Hp | (i' & Li' & Ep & Hw)]; [lia |]. exfalso.
      destruct (stage_position_unique n_blocks i j i') as (_ & Ej); lia.
Qed.

(** ** Shapes through the layers *)

Lemma conv_out_kernel_1 h s : conv_out h 1 s 0 = strided h s.
Proof. unfold conv_out, strided. f_equal. f_equal. lia. Qed.

Lemma conv_out_kernel_3 h s : conv_out h 3 s 1 = strided h s.
Proof. unfold conv_out, strided. f_equal. f_equal. lia. Qed.

Lemma strided_1 h : strided h 1 = h.
Proof. unfold strided. rewrite Z.div_1_r. lia. Qed.

Lemma strided_pos h s : 0 < s -> 0 < h -> 0 < strided h s.
Proof.
  intros Hs Hh. unfold strided.
  assert (0 <= (h - 1) / s) by (apply Z.div_pos; lia). lia.
Qed.

(** The same extent as a ceiling: [ceil(h / s)]. *)
Lemma strided_ceil h s : 0 < s -> strided h s = - ((- h) / s).
Proof.
  intros Hs. unfold strided.
  pose proof (Z.div_mod (h - 1) s ltac:(lia)) as D.
  pose proof (Z.mod_pos_bound (h - 1) s Hs) as B.
  rewrite <- (Z.div_unique (- h) s (- ((h - 1) / s) - 1) (s - (h - 1) mod s - 1));
    lia.
Qed.

Lemma strided_of_1 s : 0 < s -> strided 1 s = 1.
Proof.
  intros Hs. unfold strided. replace (1 - 1) with 0 by lia.
  now rewrite Z.div_0_l by lia.
Qed.

Lemma conv_axis_ok_true h k s p :
  0 < k -> 0 < s -> 0 <= p -> k <= h + 2 * p -> conv_axis_ok h k s p = true.
Proof.
  intros Hk Hs Hp Hh. unfold conv_axis_ok.
  destruct (Z.ltb_spec 0 k), (Z.ltb_spec 0 s), (Z.leb_spec 0 p),
    (Z.leb_spec k (h + 2 * p)); simpl; try lia; reflexivity.
Qed.

Lemma product_1 b h w : 0 < h -> 0 < w -> b * h * w = 1 -> b = 1 /\ h = 1 /\ w = 1.
Proof.
  intros Hh Hw E.
  apply Z.eq_mul_1_nonneg' in E; [| lia]. destruct E as (E & ->).
  apply Z.eq_mul_1_nonneg' in E; [| lia]. destruct E as (-> & ->).
  auto.
Qed.

Section LayerShapes.
Context {mode : Mode}.

(** Striding only shrinks a map: more than one value after it means more
    than one value before it. *)
Lemma enough_values_before b h w s :
  0 < s -> 0 < h -> 0 < w ->
  enough_values b (strided h s) (strided w s) -> enough_values b h w.
Proof.
  intros Hs Hh Hw En Tr E. apply (En Tr).
  apply product_1 in E; [| assumption ..]. destruct E as (-> & -> & ->).
  now rewrite strided_of_1.
Qed.

Lemma conv_forward_shape i o k s p b h w :
  0 < i -> 0 < o ->
  0 < k -> 0 < s -> 0 <= p -> k <= h + 2 * p -> k <= w + 2 * p ->
  layer_forward (Conv2d i o k s p) [b; i; h; w]
  = Ok [b; o; conv_out h k s p; conv_out w k s p].
Proof.
  intros Hi Ho Hk Hs Hp Hh Hw. simpl. unfold conv2d_shape.
  rewrite Z.eqb_refl, !conv_axis_ok_true by assumption.
  destruct (Z.ltb_spec 0 o); [| lia].
  destruct (Z.eqb_spec i 0); [lia | reflexivity].
Qed.

Lemma conv_1_forward_shape i o s b h w :
  0 < i -> 0 < o -> 0 < s -> 0 < h -> 0 < w ->
  layer_forward (Conv2d i o 1 s 0) [b; i; h; w]
  = Ok [b; o; strided h s; strided w s].
Proof.
  intros Hi Ho Hs Hh Hw. rewrite conv_forward_shape by lia.
  now rewrite !conv_out_kernel_1.
Qed.

Lemma conv_3_forward_shape i o s b h w :
  0 < i -> 0 < o -> 0 < s -> 0 < h -> 0 < w ->
  layer_forward (Conv2d i o 3 s 1) [b; i; h; w]
  = Ok [b; o; strided h s; strided w s].
Proof.
  intros Hi Ho Hs Hh Hw. rewrite conv_forward_shape by lia.
  now rewrite !conv_out_kernel_3.
Qed.

Lemma bn_forward_shape n b h w :
  0 < n -> enough_values b h w ->
  layer_forward (BatchNorm2d n) [b; n; h; w] = Ok [b; n; h; w].
Proof.
  intros Hn En. simpl. unfold batch_norm_shape. rewrite Z.eqb_refl.
  destruct (Z.ltb_spec 0 n); [| lia].
  assert (E : training && (b * h * w =? 1) = false).
  { unfold enough_values in En. destruct training; [| reflexivity].
    destruct (Z.eqb_spec (b * h * w) 1) as [E | _]; [| reflexivity].
    now destruct (En eq_refl). }
  rewrite E. now destruct (b * n * h * w =? 0).
Qed.

Lemma relu_forward_shape (x : shape) : layer_forward ReLU x = Ok x.
Proof. reflexivity. Qed.
End LayerShapes.

Lemma broadcast_rev_same (x : list Z) : broadcast_rev x x = Ok x.
Proof.
  induction x as [| a x IH]; [reflexivity |].
  simpl. unfold broadcast_dim. now rewrite Z.eqb_refl, IH.
Qed.

Lemma add_shape_same (x : shape) : add_shape x x = Ok x.
Proof.
  unfold add_shape. rewrite broadcast_rev_same. simpl. now rewrite rev_involutive.
Qed.

(** Rewrites the shape of one layer call; the side conditions are
    arithmetic, or say that there are enough values to normalize. *)
Ltac side_condition :=
  first [ assumption
        | lia
        | apply strided_pos; lia
        | eapply enough_values_before; [| | | eassumption]; lia ].

Ltac layer_step :=
  first [ rewrite conv_1_forward_shape by side_condition
        | rewrite conv_3_forward_shape by side_condition
        | rewrite bn_forward_shape by side_condition
        | rewrite relu_forward_shape ];
  cbn [bind]; rewrite ?strided_1.

Section BlockShapes.
Context {mode : Mode}.
Variables (i o s b h w : Z).
Hypothesis Hi : 0 < i.
Hypothesis Ho : 0 < o.
Hypothesis Hs : 0 < s.
Hypothesis Hh : 0 < h.
Hypothesis Hw : 0 < w.
Hypothesis En : enough_values b (strided h s) (strided w s).

Lemma projection_forward_shape :
  ShortcutProjection.forward
    {| ShortcutProjection.conv := Conv2d i o 1 s 0;
       ShortcutProjection.bn := BatchNorm2d o |} [b; i; h; w]
  = Ok [b; o; strided h s; strided w s].
Proof.
  unfold ShortcutProjection.forward.
  cbn [ShortcutProjection.conv ShortcutProjection.bn].
  now repeat layer_step.
Qed.

Lemma shortcut_of_forward_shape :
  shortcut_forward (shortcut_of i o s) [b; i; h; w]
  = Ok [b; o; strided h s; strided w s].
Proof.
  unfold shortcut_of.
  destruct (Z.eqb_spec s 1) as [E1 | Ns], (Z.eqb_spec i o) as [E2 | Nio];
    cbn [negb orb shortcut_forward];
    try (now apply projection_forward_shape).
  rewrite E1, E2. now rewrite !strided_1.
Qed.

Lemma residual_res_shape :
  sequential (block_res (residual_block i o s)) [b; i; h; w]
  = Ok [b; o; strided h s; strided w s].
Proof.
  cbn [block_res residual_block ResidualBlock.res sequential].
  now repeat layer_step.
Qed.

Lemma bottleneck_res_shape m :
  0 < m ->
  sequential (block_res (bottleneck_block i m o s)) [b; i; h; w]
  = Ok [b; o; strided h s; strided w s].
Proof.
  intros Hm.
  cbn [block_res bottleneck_block BottleneckResidualBlock.res sequential].
  now repeat layer_step.
Qed.

Lemma built_res_shape m :
  (forall wv, m = Some wv -> 0 < wv) ->
  sequential (block_res (built_block m i o s)) [b; i; h; w]
  = Ok [b; o; strided h s; strided w s].
Proof.
  intros Hm. destruct m as [wv |];
    [apply bottleneck_res_shape; now apply Hm | apply residual_res_shape].
Qed.
End BlockShapes.

(** A block's forward pass is its two paths, added and rectified. *)
Lemma block_forward_paths {T : Type} {ops : TensorOps T} (blk : block) (x : T) :
  block_forward blk x
  = (sc <- shortcut_forward (block_shortcut blk) x ;;
     y <- sequential (block_res blk) x ;;
     z <- add y sc ;;
     layer_forward (match blk with
                    | Plain r => ResidualBlock.act r
                    | Bottleneck r => BottleneckResidualBlock.act r
                    end) z).
Proof. destruct blk; reflexivity. Qed.

Lemma built_block_forward_shape {mode : Mode} m i o s b h w :
  0 < i -> 0 < o -> (forall wv, m = Some wv -> 0 < wv) ->
  0 < s -> 0 < h -> 0 < w ->
  enough_values b (strided h s) (strided w s) ->
  block_forward (built_block m i o s) [b; i; h; w]
  = Ok [b; o; strided h s; strided w s].
Proof.
  intros Hi Ho Hm Hs Hh Hw En. rewrite block_forward_paths.
  rewrite block_shortcut_built, shortcut_of_forward_shape by assumption.
  cbn [bind]. rewrite built_res_shape by assumption. cbn [bind].
  change (add ?x ?y) with (add_shape x y). rewrite add_shape_same. cbn [bind].
  destruct m; reflexivity.
Qed.

Lemma block_init_Ok m i o s blk :
  block_init m i o s = Ok blk ->
  blk = built_block m i o s /\ 0 <= i /\ 0 <= o.
Proof.
  unfold block_init. destruct m as [w |]; intros H; inv_bind H as r E.
  - apply BottleneckResidualBlock_init_Ok in E. destruct E as (E & Hi & _ & Ho).
    injection H as <-. auto.
  - apply ResidualBlock_init_Ok in E. destruct E as (E & Hi & Ho).
    injection H as <-. auto.
Qed.

(** ** Shapes through the whole list of blocks *)

Lemma blocks_forward_app {T : Type} {ops : TensorOps T} (l1 l2 : list block) (x : T) :
  blocks_forward (l1 ++ l2) x = (y <- blocks_forward l1 x ;; blocks_forward l2 y).
Proof.
  revert x. induction l1 as [| blk l1 IH]; intros x; simpl; [reflexivity |].
  destruct (block_forward blk x); simpl; [apply IH | reflexivity].
Qed.

Lemma nth_pred_length_last (l : list Z) (d : Z) :
  nth (Nat.pred (length l)) l d = last l d.
Proof.
  induction l as [| x l IH]; [reflexivity |].
  destruct l as [| y l]; [reflexivity |]. exact IH.
Qed.

Section NetworkShapes.
Context {mode : Mode}.
Variable n_blocks n_channels : list Z.
Variable bottlenecks : option (list Z).
Hypothesis Pc : Forall (fun c => 0 < c) n_channels.
Hypothesis Lb : forall bs, bottlenecks = Some bs -> length bs = length n_channels.
Hypothesis Pb : forall bs, bottlenecks = Some bs -> Forall (fun w => 0 < w) bs.
Variables b h w : Z.
Hypothesis Hh : 0 < h.
Hypothesis Hw : 0 < w.
Hypothesis En : enough_values b h w.

Local Abbreviation stage_of := (spec_stage n_blocks n_channels bottlenecks).

Lemma width_at_pos i :
  (i < length n_channels)%nat -> 0 < width_at n_channels i.
Proof.
  intros Li. unfold width_at.
  apply (proj1 (Forall_forall _ _) Pc). now apply nth_In.
Qed.

Lemma prev_width_pos i :
  (i <= length n_channels)%nat -> n_channels <> [] ->
  0 < prev_width n_channels i.
Proof.
  intros Li Hne. apply width_at_pos.
  assert (0 < length n_channels)%nat; [| lia].
  clear - Hne. destruct n_channels; [congruence | simpl; lia].
Qed.

Lemma bottleneck_at_pos i wv :
  (i < length n_channels)%nat -> bottleneck_at bottlenecks i = Some wv -> 0 < wv.
Proof.
  intros Li. unfold bottleneck_at.
  destruct bottlenecks as [bs |]; [| discriminate].
  intros [= <-]. apply (proj1 (Forall_forall _ _) (Pb bs eq_refl)).
  apply nth_In. now rewrite (Lb bs eq_refl).
Qed.

Lemma same_width_block_forward_shape m c :
  0 < c -> (forall wv, m = Some wv -> 0 < wv) ->
  block_forward (built_block m c c 1) [b; c; h; w] = Ok [b; c; h; w].
Proof.
  intros Hc Hm.
  rewrite built_block_forward_shape; rewrite ?strided_1; auto; lia.
Qed.

Lemma inner_blocks_forward_shape m c n :
  0 < c -> (forall wv, m = Some wv -> 0 < wv) ->
  blocks_forward (repeat (built_block m c c 1) n) [b; c; h; w] = Ok [b; c; h; w].
Proof.
  intros Hc Hm. induction n as [| n IH]; [reflexivity |].
  cbn [repeat blocks_forward].
  rewrite same_width_block_forward_shape by assumption. cbn [bind]. exact IH.
Qed.

Lemma later_stage_forward_shape i :
  i <> 0%nat -> (i < length n_channels)%nat ->
  blocks_forward (stage_of i) [b; prev_width n_channels i; h; w]
  = Ok [b; width_at n_channels i; h; w].
Proof.
  intros Hi Li.
  assert (Hne : n_channels <> []) by (intros E; rewrite E in Li; simpl in Li; lia).
  pose proof (width_at_pos i Li) as Wi.
  pose proof (prev_width_pos i ltac:(lia) Hne) as Wp.
  pose proof (bottleneck_at_pos i) as Wb.
  unfold spec_stage. rewrite spec_first_block_later by exact Hi.
  cbn [blocks_forward].
  rewrite built_block_forward_shape; rewrite ?strided_1; auto; try lia.
  cbn [bind]. apply inner_blocks_forward_shape; auto.
Qed.

Lemma later_stages_forward_shape n : forall a,
  a <> 0%nat -> (a + n <= length n_channels)%nat ->
  blocks_forward (concat (map stage_of (seq a n))) [b; prev_width n_channels a; h; w]
  = Ok [b; prev_width n_channels (a + n); h; w].
Proof.
  induction n as [| n IH]; intros a Ha La.
  - now rewrite Nat.add_0_r.
  - cbn [seq map concat]. rewrite blocks_forward_app.
    rewrite later_stage_forward_shape by lia. cbn [bind].
    change (width_at n_channels a) with (prev_width n_channels (S a)).
    rewrite IH by lia. now rewrite Nat.add_succ_r.
Qed.
End NetworkShapes.

Lemma spec_blocks_forward_shape {mode : Mode} n_blocks n_channels bottlenecks b h w :
  Forall (fun c => 0 < c) n_channels ->
  (forall bs, bottlenecks = Some bs -> length bs = length n_channels) ->
  (forall bs, bottlenecks = Some bs -> Forall (fun w => 0 < w) bs) ->
  0 < h -> 0 < w -> n_channels <> [] ->
  enough_values b (strided h 2) (strided w 2) ->
  blocks_forward (spec_blocks n_blocks n_channels bottlenecks)
    [b; width_at n_channels 0; h; w]
  = Ok [b; last n_channels 0; strided h 2; strided w 2].
Proof.
  intros Pc Lb Pb Hh Hw Hne En. unfold spec_blocks.
  assert (Len : exists n, length n_channels = S n)
    by (destruct n_channels; [congruence | eexists; reflexivity]).
  destruct Len as (n & Len). rewrite Len.
  assert (Hh2 : 0 < strided h 2) by (apply strided_pos; lia).
  assert (Hw2 : 0 < strided w 2) by (apply strided_pos; lia).
  assert (W0 : 0 < width_at n_channels 0) by (apply width_at_pos; [assumption | lia]).
  assert (B0 : forall wv, bottleneck_at bottlenecks 0 = Some wv -> 0 < wv).
  { intros wv. apply (bottleneck_at_pos n_channels bottlenecks Lb Pb). lia. }
  cbn [seq map concat]. rewrite blocks_forward_app.
  unfold spec_stage at 1. cbn [blocks_forward].
  unfold spec_first_block, spec_inner_block. cbn [Nat.eqb].
  change (prev_width n_channels 0) with (width_at n_channels 0).
  rewrite built_block_forward_shape by (assumption || lia). cbn [bind].
  rewrite inner_blocks_forward_shape by assumption. cbn [bind].
  change (width_at n_channels 0) with (prev_width n_channels 1).
  rewrite (later_stages_forward_shape n_blocks n_channels bottlenecks Pc Lb Pb)
    by (assumption || lia).
  unfold prev_width. cbn [Nat.add].
  now rewrite <- (nth_pred_length_last n_channels 0), Len.
Qed.

(** C2. A block of either class built with positive widths and with
    [in_channels != out_channels] or [stride != 1] has a
    [ShortcutProjection] as its shortcut, and on every 4-d input the
    library accepts (with [in_channels] channels, a non-empty spatial
    extent, and enough values left to normalize) the shortcut path and the
    transformed path return tensors of the same shape, [out_channels]
    channels over the strided extent, so that their sum is defined and has
    that shape too. *)
Theorem C2_shortcut_and_transformed_shapes_agree
  {mode : Mode}
  (m : option Z) (in_channels out_channels stride : Z) (blk : block) (b h w : Z) :
  block_init m in_channels out_channels stride = Ok blk ->
  in_channels <> out_channels \/ stride <> 1 ->
  0 < in_channels -> 0 < out_channels -> (forall wv, m = Some wv -> 0 < wv) ->
  0 < stride -> 0 < h -> 0 < w ->
  enough_values b (strided h stride) (strided w stride) ->
  let x := [b; in_channels; h; w] in
  let y := [b; out_channels; strided h stride; strided w stride] in
  (exists p, block_shortcut blk = Projection p)
  /\ shortcut_forward (block_shortcut blk) x = Ok y
  /\ sequential (block_res blk) x = Ok y
  /\ add_shape y y = Ok y
  /\ block_forward blk x = Ok y.
Proof.
  intros Hb Hd Hi Ho Hm Hs Hh Hw En x y. subst x y.
  apply block_init_Ok in Hb. destruct Hb as (-> & _ & _).
  split; [| split; [| split; [| split]]].
  - rewrite block_shortcut_built. unfold shortcut_of.
    destruct (Z.eqb_spec stride 1), (Z.eqb_spec in_channels out_channels);
      simpl; try (eexists; reflexivity).
    exfalso. destruct Hd; contradiction.
  - rewrite block_shortcut_built. now apply shortcut_of_forward_shape.
  - now apply built_res_shape.
  - apply add_shape_same.
  - now apply built_block_forward_shape.
Qed.

(** C5, as amended. For a built network with positive widths, and every
    input of shape [(B, img_channels, H, W)] with [B, H, W >= 1] that, in
    training mode, leaves more than one value per channel after the two
    stride-2 steps, the forward pass returns a tensor of shape
    [(B, n_channels[-1])], whatever [H] and [W] are. *)
Theorem C5_forward_output_shape
  {mode : Mode}
  (n_blocks n_channels : list Z) (bottlenecks : option (list Z))
  (img_channels first_kernel_size : Z) (net : ResNetBase.t) (B H W : Z) :
  ResNetBase.init n_blocks n_channels bottlenecks img_channels first_kernel_size
  = Ok net ->
  0 < img_channels ->
  Forall (fun c => 0 < c) n_channels ->
  (forall bs, bottlenecks = Some bs -> Forall (fun w => 0 < w) bs) ->
  0 < first_kernel_size -> 0 < B -> 0 < H -> 0 < W ->
  enough_values B
    (strided (conv_out H first_kernel_size 2 (first_kernel_size / 2)) 2)
    (strided (conv_out W first_kernel_size 2 (first_kernel_size / 2)) 2) ->
  ResNetBase.forward net [B; img_channels; H; W] = Ok [B; last n_channels 0].
Proof.
  rename first_kernel_size into k. intros Built Hi Pc Pb Hk HB HH HW En.
  destruct (init_Ok _ _ _ _ _ _ Built) as (_ & Lb & Hne & Ec & Eb & _ & Ebl).
  unfold ResNetBase.forward. rewrite Ec, Eb, Ebl.
  assert (W0 : 0 < width_at n_channels 0).
  { apply width_at_pos; [assumption |].
    destruct n_channels; [congruence | simpl; lia]. }
  assert (Wl : 0 < last n_channels 0).
  { rewrite <- nth_pred_length_last.
    change (0 < prev_width n_channels (length n_channels)).
    eapply prev_width_pos; eauto. }
  assert (Hp : 0 <= k / 2) by (apply Z.div_pos; lia).
  assert (Hm : k <= 1 + 2 * (k / 2)).
  { pose proof (Z.div_mod k 2 ltac:(lia)). pose proof (Z.mod_pos_bound k 2 ltac:(lia)).
    lia. }
  assert (Ho : forall e, 0 < e -> 0 < conv_out e k 2 (k / 2)).
  { intros e He. unfold conv_out.
    assert (0 <= (e + 2 * (k / 2) - k) / 2) by (apply Z.div_pos; lia). lia. }
  rewrite conv_forward_shape by lia. cbn [bind].
  rewrite bn_forward_shape
    by (auto; apply (enough_values_before _ _ _ 2); auto; lia).
  cbn [bind].
  rewrite spec_blocks_forward_shape by auto. cbn [bind].
  cbn [view_flat mean_last shape_ops]. unfold view_flat_shape.
  destruct (Z.eqb_spec (B * last n_channels 0) 0) as [Ez | _]; [nia |].
  reflexivity.
Qed.

(** C6. A block of either class built with [in_channels == out_channels] and
    [stride == 1] has [nn.Identity()] as its shortcut, and its shortcut path
    returns its input itself, whatever the tensor library computes. *)
Theorem C6_identity_shortcut_returns_input
  {T : Type} {ops : TensorOps T}
  (m : option Z) (in_channels out_channels stride : Z) (blk : block) (x : T) :
  block_init m in_channels out_channels stride = Ok blk ->
  in_channels = out_channels -> stride = 1 ->
  block_shortcut blk = IdentityShortcut
  /\ shortcut_forward (block_shortcut blk) x = Ok x.
Proof.
  intros Hb -> ->. apply block_init_Ok in Hb. destruct Hb as (-> & _ & _).
  rewrite block_shortcut_built, shortcut_of_same. split; reflexivity.
Qed.

(** C7. A [BottleneckResidualBlock] applies to its input the convolution
    1x1 (stride 1) to the bottleneck width, normalization, rectification,
    the convolution 3x3 (the block's stride, padding 1) at the bottleneck
    width, normalization, rectification, the convolution 1x1 (stride 1) to
    [out_channels], normalization; then it adds the shortcut and rectifies.
    With positive widths, on a 4-d input with [in_channels] channels its
    output has [out_channels] channels, not the bottleneck width. *)
Theorem C7_bottleneck_sequence_and_output_width
  (in_channels bottleneck_channels out_channels stride : Z)
  (blk : BottleneckResidualBlock.t) :
  BottleneckResidualBlock.init in_channels bottleneck_channels out_channels stride
  = Ok blk ->
  BottleneckResidualBlock.res blk
  = [Conv2d in_channels bottleneck_channels 1 1 0; BatchNorm2d bottleneck_channels;
     ReLU;
     Conv2d bottleneck_channels bottleneck_channels 3 stride 1;
     BatchNorm2d bottleneck_channels;
     ReLU;
     Conv2d bottleneck_channels out_channels 1 1 0; BatchNorm2d out_channels]
  /\ (forall (T : Type) (ops : TensorOps T) (x : T),
        BottleneckResidualBlock.forward blk x
        = (sc <- shortcut_forward (BottleneckResidualBlock.shortcut blk) x ;;
           y <- conv2d in_channels bottleneck_channels 1 1 0 x ;;
           y <- batch_norm bottleneck_channels y ;;
           y <- conv2d bottleneck_channels bottleneck_channels 3 stride 1 (relu y) ;;
           y <- batch_norm bottleneck_channels y ;;
           y <- conv2d bottleneck_channels out_channels 1 1 0 (relu y) ;;
           y <- batch_norm out_channels y ;;
           s <- add y sc ;;
           Ok (relu s)))
  /\ (forall (mode : Mode) (b h w : Z),
        0 < in_channels -> 0 < bottleneck_channels -> 0 < out_channels ->
        0 < stride -> 0 < h -> 0 < w ->
        enough_values b (strided h stride) (strided w stride) ->
        BottleneckResidualBlock.forward blk [b; in_channels; h; w]
        = Ok [b; out_channels; strided h stride; strided w stride]).
Proof.
  intros Hb. apply BottleneckResidualBlock_init_Ok in Hb. destruct Hb as (Hb & _).
  unfold bottleneck_block in Hb. injection Hb as ->.
  split; [reflexivity | split].
  - intros T ops x. unfold BottleneckResidualBlock.forward.
    cbn [BottleneckResidualBlock.res BottleneckResidualBlock.shortcut
         BottleneckResidualBlock.act sequential layer_forward].
    destruct (shortcut_forward (shortcut_of in_channels out_channels stride) x);
      [| reflexivity].
    cbn [bind].
    destruct (conv2d in_channels bottleneck_channels 1 1 0 x) as [y1 |];
      [| reflexivity]; cbn [bind].
    destruct (batch_norm bottleneck_channels y1) as [y2 |];
      [| reflexivity]; cbn [bind].
    destruct (conv2d bottleneck_channels bottleneck_channels 3 stride 1 (relu y2))
      as [y3 |]; [| reflexivity]; cbn [bind].
    destruct (batch_norm bottleneck_channels y3) as [y4 |];
      [| reflexivity]; cbn [bind].
    destruct (conv2d bottleneck_channels out_channels 1 1 0 (relu y4)) as [y5 |];
      [| reflexivity]; cbn [bind].
    destruct (batch_norm out_channels y5) as [y6 |]; reflexivity.
  - intros mode b h w Hi Hm Ho Hs Hh Hw En.
    apply (built_block_forward_shape (Some bottleneck_channels)
             in_channels out_channels stride b h w); try assumption.
    now intros wv [= <-].
Qed.

(** C8, as amended. A [ShortcutProjection] is a convolution with kernel 1,
    the given stride and no padding, followed by a normalization over
    [out_channels], and its forward pass applies the one and then the
    other.  With positive channel counts and stride, on an input with
    [in_channels] channels and spatial extent [H x W], [H, W >= 1], that in
    training mode leaves more than one value per channel, it returns
    [out_channels] channels over
    [(floor((H - 1) / stride) + 1) x (floor((W - 1) / stride) + 1)]. *)
Theorem C8_projection_output_shape
  {mode : Mode}
  (in_channels out_channels stride : Z) (p : ShortcutProjection.t) (b H W : Z) :
  ShortcutProjection.init in_channels out_channels stride = Ok p ->
  0 < in_channels -> 0 < out_channels ->
  0 < stride -> 0 < H -> 0 < W ->
  enough_values b ((H - 1) / stride + 1) ((W - 1) / stride + 1) ->
  p = {| ShortcutProjection.conv := Conv2d in_channels out_channels 1 stride 0;
         ShortcutProjection.bn := BatchNorm2d out_channels |}
  /\ (forall (T : Type) (ops : TensorOps T) (x : T),
        ShortcutProjection.forward p x
        = (y <- conv2d in_channels out_channels 1 stride 0 x ;;
           batch_norm out_channels y))
  /\ ShortcutProjection.forward p [b; in_channels; H; W]
     = Ok [b; out_channels; (H - 1) / stride + 1; (W - 1) / stride + 1].
Proof.
  intros Hp Hi Ho Hs HH HW En. apply ShortcutProjection_init_Ok in Hp.
  destruct Hp as (-> & _). split; [reflexivity |]. split; [reflexivity |].
  now apply projection_forward_shape.
Qed.

(* ================================================================= *)
(** * Further properties of the blocks and of the builder *)

(** ** Blocks *)

(** X1. A block of either class built with positive widths, with
    [in_channels == out_channels] and [stride == 1], returns a tensor of
    exactly the shape of its input, for every 4-d input with that many
    channels, a non-empty spatial extent and, in training mode, more than
    one value per channel. *)
Theorem X1_same_width_block_preserves_shape
  {mode : Mode} (m : option Z) (channels : Z) (blk : block) (b h w : Z) :
  block_init m channels channels 1 = Ok blk ->
  0 < channels -> (forall wv, m = Some wv -> 0 < wv) ->
  0 < h -> 0 < w -> enough_values b h w ->
  block_forward blk [b; channels; h; w] = Ok [b; channels; h; w].
Proof.
  intros Hb Hc Hm Hh Hw En. apply block_init_Ok in Hb. destruct Hb as (-> & _ & _).
  now apply same_width_block_forward_shape.
Qed.

(** X2. A [ResidualBlock] applies to its input the convolution 3x3 (the
    block's stride, padding 1) to [out_channels], normalization,
    rectification, the convolution 3x3 (stride 1, padding 1) at
    [out_channels], normalization; then it adds the shortcut, computed
    first from the same input, and rectifies.  With positive widths and
    stride, on a 4-d input with [in_channels] channels, a non-empty spatial
    extent and, in training mode, more than one value per channel left, its
    output has [out_channels] channels over the strided extent. *)
Theorem X2_residual_sequence_and_output_shape
  (in_channels out_channels stride : Z) (blk : ResidualBlock.t) :
  ResidualBlock.init in_channels out_channels stride = Ok blk ->
  ResidualBlock.res blk
  = [Conv2d in_channels out_channels 3 stride 1; BatchNorm2d out_channels;
     ReLU;
     Conv2d out_channels out_channels 3 1 1; BatchNorm2d out_channels]
  /\ (forall (T : Type) (ops : TensorOps T) (x : T),
        ResidualBlock.forward blk x
        = (sc <- shortcut_forward (ResidualBlock.shortcut blk) x ;;
           y <- conv2d in_channels out_channels 3 stride 1 x ;;
           y <- batch_norm out_channels y ;;
           y <- conv2d out_channels out_channels 3 1 1 (relu y) ;;
           y <- batch_norm out_channels y ;;
           s <- add y sc ;;
           Ok (relu s)))
  /\ (forall (mode : Mode) (b h w : Z),
        0 < in_channels -> 0 < out_channels ->
        0 < stride -> 0 < h -> 0 < w ->
        enough_values b (strided h stride) (strided w stride) ->
        ResidualBlock.forward blk [b; in_channels; h; w]
        = Ok [b; out_channels; strided h stride; strided w stride]).
Proof.
  intros Hb. apply ResidualBlock_init_Ok in Hb. destruct Hb as (Hb & _).
  unfold residual_block in Hb. injection Hb as ->.
  split; [reflexivity | split].
  - intros T ops x. unfold ResidualBlock.forward.
    cbn [ResidualBlock.res ResidualBlock.shortcut ResidualBlock.act
         sequential layer_forward].
    destruct (shortcut_forward (shortcut_of in_channels out_channels stride) x);
      [| reflexivity].
    cbn [bind].
    destruct (conv2d in_channels out_channels 3 stride 1 x) as [y1 |];
      [| reflexivity]; cbn [bind].
    destruct (batch_norm out_channels y1) as [y2 |]; [| reflexivity]; cbn [bind].
    destruct (conv2d out_channels out_channels 3 1 1 (relu y2)) as [y3 |];
      [| reflexivity]; cbn [bind].
    destruct (batch_norm out_channels y3) as [y4 |]; reflexivity.
  - intros mode b h w Hi Ho Hs Hh Hw En.
    apply (built_block_forward_shape None in_channels out_channels stride b h w);
      try assumption.
    discriminate.
Qed.

(** ** Channels along the list of blocks *)

Lemma block_channels_built m i o s :
  block_in_channels (built_block m i o s) = Some i
  /\ block_out_channels (built_block m i o s) = Some o.
Proof. destruct m; split; reflexivity. Qed.

Lemma channels_through_cons m i o s bs :
  channels_through i (built_block m i o s :: bs) = channels_through o bs.
Proof.
  cbn [channels_through].
  destruct (block_channels_built m i o s) as (-> & ->).
  now rewrite Z.eqb_refl.
Qed.

Lemma channels_through_app bs1 : forall c bs2,
  channels_through c (bs1 ++ bs2)
  = match channels_through c bs1 with
    | Some c' => channels_through c' bs2
    | None => None
    end.
Proof.
  induction bs1 as [| b bs1 IH]; intros c bs2; [reflexivity |].
  cbn [app channels_through].
  destruct (block_in_channels b) as [i |], (block_out_channels b) as [o |];
    try reflexivity.
  destruct (i =? c); [apply IH | reflexivity].
Qed.

Lemma channels_through_repeat m c n :
  channels_through c (repeat (built_block m c c 1) n) = Some c.
Proof.
  induction n as [| n IH]; [reflexivity |].
  cbn [repeat]. now rewrite channels_through_cons.
Qed.

Section Chain.
Variable n_blocks n_channels : list Z.
Variable bottlenecks : option (list Z).

Lemma channels_through_stage i :
  channels_through (prev_width n_channels i)
    (spec_stage n_blocks n_channels bottlenecks i)
  = Some (width_at n_channels i).
Proof.
  unfold spec_stage, spec_first_block, spec_inner_block.
  rewrite channels_through_cons. apply channels_through_repeat.
Qed.

Lemma channels_through_stages n : forall a,
  channels_through (prev_width n_channels a)
    (concat (map (spec_stage n_blocks n_channels bottlenecks) (seq a n)))
  = Some (prev_width n_channels (a + n)).
Proof.
  induction n as [| n IH]; intros a.
  - now rewrite Nat.add_0_r.
  - cbn [seq map concat].
    rewrite channels_through_app, channels_through_stage.
    change (width_at n_channels a) with (prev_width n_channels (S a)).
    rewrite IH. now rewrite Nat.add_succ_r.
Qed.
End Chain.

(** X3. In a built network the blocks fit channel-wise: the first block
    expects [n_channels[0]] channels, the output width of the stem; each
    later block expects what the block before it delivers; and the last one
    delivers [n_channels[-1]]. *)
Theorem X3_blocks_chain_channels
  (n_blocks n_channels : list Z) (bottlenecks : option (list Z))
  (img_channels first_kernel_size : Z) (net : ResNetBase.t) :
  ResNetBase.init n_blocks n_channels bottlenecks img_channels first_kernel_size
  = Ok net ->
  (exists i p k s, ResNetBase.conv net = Conv2d i (width_at n_channels 0) k s p)
  /\ channels_through (width_at n_channels 0) (ResNetBase.blocks net)
     = Some (last n_channels 0).
Proof.
  intros Built.
  destruct (init_Ok _ _ _ _ _ _ Built) as (_ & _ & Hne & Ec & _ & _ & ->).
  split; [rewrite Ec; now repeat eexists |].
  unfold spec_blocks.
  change (width_at n_channels 0) with (prev_width n_channels 0).
  rewrite channels_through_stages. unfold prev_width. cbn [Nat.add].
  apply f_equal, nth_pred_length_last.
Qed.

(** X4. The class of the blocks follows [bottlenecks]: without it every
    block of a built network is a [ResidualBlock]; with it every block is a
    [BottleneckResidualBlock], and the blocks of stage [i] reduce to
    [bottlenecks[i]] channels. *)
Theorem X4_block_class_follows_bottlenecks
  (n_blocks n_channels : list Z) (bottlenecks : option (list Z))
  (img_channels first_kernel_size : Z) (net : ResNetBase.t) :
  ResNetBase.init n_blocks n_channels bottlenecks img_channels first_kernel_size
  = Ok net ->
  (bottlenecks = None ->
   Forall (fun b => is_plain b = true) (ResNetBase.blocks net))
  /\ (forall bs, bottlenecks = Some bs ->
        Forall (fun b => is_plain b = false) (ResNetBase.blocks net)
        /\ forall i j b,
             (i < length n_channels)%nat ->
             (j < stage_len (count_at n_blocks i))%nat ->
             nth_error (ResNetBase.blocks net) (stage_start n_blocks i + j) = Some b ->
             bottleneck_width b = Some (nth i bs 0)).
Proof.
  intros Built. split.
  - intros ->. apply Forall_forall. intros b Hb.
    apply In_nth_error in Hb. destruct Hb as (p & Hb).
    apply (blocks_inv _ _ _ _ _ _ Built) in Hb.
    destruct Hb as (i & j & _ & _ & Hj).
    apply nth_spec_stage in Hj. destruct Hj as [(_ & ->) | (_ & ->)]; reflexivity.
  - intros bs ->. split.
    + apply Forall_forall. intros b Hb.
      apply In_nth_error in Hb. destruct Hb as (p & Hb).
      apply (blocks_inv _ _ _ _ _ _ Built) in Hb.
      destruct Hb as (i & j & _ & _ & Hj).
      apply nth_spec_stage in Hj. destruct Hj as [(_ & ->) | (_ & ->)]; reflexivity.
    + intros i j b Li Lj Hb. destruct j as [| j].
      * rewrite (blocks_at _ _ _ _ _ _ Built i 0 _ Li
                   (nth_spec_stage_first n_blocks n_channels (Some bs) i)) in Hb.
        injection Hb as <-. reflexivity.
      * rewrite (blocks_at _ _ _ _ _ _ Built i (S j) _ Li
                   (nth_spec_stage_inner n_blocks n_channels (Some bs) i (S j)
                      (conj (Nat.lt_0_succ j) Lj))) in Hb.
        injection Hb as <-. reflexivity.
Qed.

(** ** The forward pass, step by step *)

Lemma forward_steps {T : Type} {ops : TensorOps T} (net : ResNetBase.t) (x : T) :
  ResNetBase.forward net x
  = (y <- stem_forward net x ;;
     z <- blocks_forward (ResNetBase.blocks net) y ;;
     v <- view_flat z ;;
     mean_last v).
Proof.
  unfold ResNetBase.forward, stem_forward.
  destruct (layer_forward (ResNetBase.conv net) x); reflexivity.
Qed.

Lemma stem_extent h k :
  conv_out h k 2 (k / 2) = if Z.odd k then strided h 2 else h / 2 + 1.
Proof.
  unfold conv_out, strided.
  pose proof (Zdiv2_odd_eqn k) as E. rewrite Z.div2_div in E. revert E.
  destruct (Z.odd k); intros E; do 2 f_equal; lia.
Qed.

Lemma stem_extent_pos h k : 0 < k -> 0 < h -> 0 < conv_out h k 2 (k / 2).
Proof.
  intros Hk Hh. rewrite stem_extent. destruct (Z.odd k).
  - apply strided_pos; lia.
  - assert (0 <= h / 2) by (apply Z.div_pos; lia). lia.
Qed.

Lemma stem_fits h k : 0 < k -> 0 < h -> 0 <= k / 2 /\ k <= h + 2 * (k / 2).
Proof.
  intros Hk Hh.
  pose proof (Zdiv2_odd_eqn k) as E. rewrite Z.div2_div in E. revert E.
  destruct (Z.odd k); intros E; lia.
Qed.

Section StemShape.
Context {mode : Mode}.
Variables (n_blocks n_channels : list Z) (bottlenecks : option (list Z)).
Variables (img k : Z) (net : ResNetBase.t).
Hypothesis Built : ResNetBase.init n_blocks n_channels bottlenecks img k = Ok net.
Variables (b h w : Z).
Hypothesis Hi : 0 < img.
Hypothesis Hc : 0 < width_at n_channels 0.
Hypothesis Hk : 0 < k.
Hypothesis Hh : 0 < h.
Hypothesis Hw : 0 < w.

Lemma stem_conv_shape :
  layer_forward (ResNetBase.conv net) [b; img; h; w]
  = Ok [b; width_at n_channels 0; conv_out h k 2 (k / 2); conv_out w k 2 (k / 2)].
Proof.
  destruct (init_Ok _ _ _ _ _ _ Built) as (_ & _ & _ & -> & _ & _ & _).
  destruct (stem_fits h k Hk Hh), (stem_fits w k Hk Hw).
  apply conv_forward_shape; lia.
Qed.

Lemma stem_forward_shape :
  enough_values b (conv_out h k 2 (k / 2)) (conv_out w k 2 (k / 2)) ->
  stem_forward net [b; img; h; w]
  = Ok [b; width_at n_channels 0; conv_out h k 2 (k / 2); conv_out w k 2 (k / 2)].
Proof.
  intros En. unfold stem_forward. rewrite stem_conv_shape. cbn [bind].
  destruct (init_Ok _ _ _ _ _ _ Built) as (_ & _ & _ & _ & -> & _ & _).
  now apply bn_forward_shape.
Qed.

Lemma features_shape :
  Forall (fun c => 0 < c) n_channels ->
  (forall bs, bottlenecks = Some bs -> Forall (fun w => 0 < w) bs) ->
  enough_values b (strided (conv_out h k 2 (k / 2)) 2)
                  (strided (conv_out w k 2 (k / 2)) 2) ->
  (y <- stem_forward net [b; img; h; w] ;;
   blocks_forward (ResNetBase.blocks net) y)
  = Ok [b; last n_channels 0;
        strided (conv_out h k 2 (k / 2)) 2; strided (conv_out w k 2 (k / 2)) 2].
Proof.
  intros Pc Pb En.
  pose proof (stem_extent_pos h k Hk Hh) as Ph.
  pose proof (stem_extent_pos w k Hk Hw) as Pw.
  rewrite stem_forward_shape
    by (apply (enough_values_before _ _ _ 2); auto; lia).
  cbn [bind].
  destruct (init_Ok _ _ _ _ _ _ Built) as (_ & Lb & Hne & _ & _ & _ & ->).
  now apply spec_blocks_forward_shape.
Qed.
End StemShape.

(** X5. The list of blocks of a built network with positive widths, called
    on a tensor of shape [(B, n_channels[0], h, w)] with [h, w >= 1] that in
    training mode keeps more than one value per channel after halving,
    returns one of shape
    [(B, n_channels[-1], floor((h - 1) / 2) + 1, floor((w - 1) / 2) + 1)]:
    whatever the number of stages and blocks, the spatial extent is halved
    exactly once. *)
Theorem X5_blocks_halve_extent_once
  {mode : Mode}
  (n_blocks n_channels : list Z) (bottlenecks : option (list Z))
  (img_channels first_kernel_size : Z) (net : ResNetBase.t) (b h w : Z) :
  ResNetBase.init n_blocks n_channels bottlenecks img_channels first_kernel_size
  = Ok net ->
  Forall (fun c => 0 < c) n_channels ->
  (forall bs, bottlenecks = Some bs -> Forall (fun w => 0 < w) bs) ->
  0 < h -> 0 < w ->
  enough_values b ((h - 1) / 2 + 1) ((w - 1) / 2 + 1) ->
  blocks_forward (ResNetBase.blocks net) [b; width_at n_channels 0; h; w]
  = Ok [b; last n_channels 0; (h - 1) / 2 + 1; (w - 1) / 2 + 1].
Proof.
  intros Built Pc Pb Hh Hw En.
  destruct (init_Ok _ _ _ _ _ _ Built) as (_ & Lb & Hne & _ & _ & _ & ->).
  now apply spec_blocks_forward_shape.
Qed.

(** X6. The stem of a built network with [img_channels >= 1] and
    [n_channels[0] >= 1], the convolution with stride 2 and padding
    [first_kernel_size // 2] followed by the normalization, called on a
    tensor of shape [(B, img_channels, H, W)] with [H, W >= 1] (and, in
    training mode, more than one value per channel left), returns
    [n_channels[0]] channels; with an odd kernel size the spatial extent is
    [floor((H - 1) / 2) + 1], that is [ceil(H / 2)], whatever the kernel
    size, and with an even one it is [floor(H / 2) + 1]. *)
Theorem X6_stem_output_shape
  {mode : Mode}
  (n_blocks n_channels : list Z) (bottlenecks : option (list Z))
  (img_channels first_kernel_size : Z) (net : ResNetBase.t) (B H W : Z) :
  ResNetBase.init n_blocks n_channels bottlenecks img_channels first_kernel_size
  = Ok net ->
  0 < img_channels -> 0 < width_at n_channels 0 ->
  0 < first_kernel_size -> 0 < H -> 0 < W ->
  let extent e :=
    if Z.odd first_kernel_size then (e - 1) / 2 + 1 else e / 2 + 1 in
  enough_values B (extent H) (extent W) ->
  stem_forward net [B; img_channels; H; W]
  = Ok [B; width_at n_channels 0; extent H; extent W].
Proof.
  intros Built Hi Hc Hk HH HW extent En. subst extent. cbv beta in *.
  change ((H - 1) / 2 + 1) with (strided H 2) in *.
  change ((W - 1) / 2 + 1) with (strided W 2) in *.
  rewrite <- !stem_extent in *.
  now apply (stem_forward_shape _ _ _ _ _ _ Built).
Qed.

(** ** When the constructor succeeds *)

(** X7. The constructor returns a network exactly when the three lists
    agree in length, there is at least one stage, and every layer of the
    network the configuration describes can be constructed (no negative
    extent, and parameters the machine can allocate); the block counts are
    unconstrained.  It then returns that network. *)
Theorem X7_constructor_succeeds_iff
  (n_blocks n_channels : list Z) (bottlenecks : option (list Z))
  (img_channels first_kernel_size : Z) :
  (exists net,
      ResNetBase.init n_blocks n_channels bottlenecks img_channels first_kernel_size
      = Ok net)
  <->
  (length n_blocks = length n_channels
   /\ (forall bs, bottlenecks = Some bs -> length bs = length n_channels)
   /\ n_channels <> []
   /\ all_constructible
        (network_layers n_blocks n_channels bottlenecks
           img_channels first_kernel_size)).
Proof.
  split.
  - intros (net & Built).
    destruct (init_Ok _ _ _ _ _ _ Built) as (L1 & L2 & Hne & _).
    repeat split; try assumption. now apply (init_needs _ _ _ _ _ _ Built).
  - intros (L1 & L2 & Hne & C). now apply init_constructible.
Qed.

(** X8. With no stage at all (empty [n_blocks] and [n_channels], and
    [bottlenecks] absent or empty) both assertions hold and the constructor
    raises [IndexError] at [n_channels[0]], whatever the other arguments:
    an empty network is never returned. *)
Theorem X8_no_stage_raises_IndexError
  (n_blocks n_channels : list Z) (bottlenecks : option (list Z))
  (img_channels first_kernel_size : Z) :
  n_channels = [] ->
  length n_blocks = length n_channels ->
  (forall bs, bottlenecks = Some bs -> length bs = length n_channels) ->
  ResNetBase.init n_blocks n_channels bottlenecks img_channels first_kernel_size
  = Raise IndexError.
Proof.
  intros -> L1 L2. unfold ResNetBase.init.
  rewrite L1, Nat.eqb_refl. cbn [assert bind].
  destruct bottlenecks as [bs |].
  - rewrite (L2 bs eq_refl), Nat.eqb_refl. reflexivity.
  - reflexivity.
Qed.

(** ** Inputs the forward pass refuses *)

(** X9. The forward pass of a built network raises on every input that is
    not 4-dimensional, and on every 4-dimensional input whose channel count
    differs from [img_channels]. *)
Theorem X9_forward_refuses_ill_shaped_input
  {mode : Mode}
  (n_blocks n_channels : list Z) (bottlenecks : option (list Z))
  (img_channels first_kernel_size : Z) (net : ResNetBase.t) (x : shape) :
  ResNetBase.init n_blocks n_channels bottlenecks img_channels first_kernel_size
  = Ok net ->
  length x <> 4%nat
  \/ (exists B c H W, x = [B; c; H; W] /\ c <> img_channels) ->
  exists e, ResNetBase.forward net x = Raise e.
Proof.
  intros Built Hx.
  destruct (init_Ok _ _ _ _ _ _ Built) as (_ & _ & _ & Ec & Eb & _ & _).
  unfold ResNetBase.forward. rewrite Ec, Eb.
  cbn [layer_forward conv2d batch_norm shape_ops].
  destruct Hx as [Hx | (B & c & H & W & -> & Hc)].
  - destruct x as [| a [| b [| c [| d [| e x]]]]];
      cbn [conv2d_shape bind length] in *;
      try (eexists; reflexivity); try contradiction.
    match goal with
    | |- context [if ?t then Ok _ else _] => destruct t
    end; cbn [bind batch_norm_shape]; eexists; reflexivity.
  - cbn [conv2d_shape].
    destruct (Z.eqb_spec c img_channels) as [E | _]; [contradiction |].
    rewrite andb_false_r. cbn [andb bind]. eexists. reflexivity.
Qed.

(** X10. For a built network with positive widths and kernel size, on an
    empty batch, a tensor of shape [(0, img_channels, H, W)] with
    [H, W >= 1], the stem and the blocks return a tensor but the forward
    pass raises at [x.view(x.shape[0], x.shape[1], -1)]: with no element
    the extent [-1] cannot be inferred. *)
Theorem X10_forward_raises_on_empty_batch
  {mode : Mode}
  (n_blocks n_channels : list Z) (bottlenecks : option (list Z))
  (img_channels first_kernel_size : Z) (net : ResNetBase.t) (H W : Z) :
  ResNetBase.init n_blocks n_channels bottlenecks img_channels first_kernel_size
  = Ok net ->
  0 < img_channels ->
  Forall (fun c => 0 < c) n_channels ->
  (forall bs, bottlenecks = Some bs -> Forall (fun w => 0 < w) bs) ->
  0 < first_kernel_size -> 0 < H -> 0 < W ->
  (exists z, (y <- stem_forward net [0; img_channels; H; W] ;;
              blocks_forward (ResNetBase.blocks net) y) = Ok z
             /\ view_flat z = Raise RuntimeError)
  /\ ResNetBase.forward net [0; img_channels; H; W] = Raise RuntimeError.
Proof.
  intros Built Hi Pc Pb Hk HH HW.
  destruct (init_Ok _ _ _ _ _ _ Built) as (_ & _ & Hne & _).
  assert (W0 : 0 < width_at n_channels 0).
  { apply width_at_pos; [assumption |].
    destruct n_channels; [congruence | simpl; lia]. }
  assert (F := features_shape _ _ _ _ _ _ Built 0 H W Hi W0 Hk HH HW Pc Pb).
  assert (En : enough_values 0
                 (strided (conv_out H first_kernel_size 2 (first_kernel_size / 2)) 2)
                 (strided (conv_out W first_kernel_size 2 (first_kernel_size / 2)) 2)).
  { intros _. rewrite Z.mul_0_l. discriminate. }
  specialize (F En). split.
  - eexists. split; [exact F | reflexivity].
  - rewrite forward_steps.
    destruct (stem_forward net [0; img_channels; H; W]) as [y |];
      cbn [bind] in *; [| discriminate].
    rewrite F. reflexivity.
Qed.

Lemma shortcut_of_stride_2 i o :
  shortcut_of i o 2
  = Projection {| ShortcutProjection.conv := Conv2d i o 1 2 0;
                  ShortcutProjection.bn := BatchNorm2d o |}.
Proof. reflexivity. Qed.

(** X11. In training mode, for a built network with [img_channels >= 1],
    [n_channels[0] >= 1] and a positive kernel size, a single image of
    extent [H, W >= 1] whose feature map shrinks to one pixel after the two
    stride-2 steps makes the forward pass raise [ValueError]: a
    normalization layer, in the stem or in the first block's shortcut, is
    handed a single value per channel. *)
Theorem X11_training_needs_more_than_one_value
  (n_blocks n_channels : list Z) (bottlenecks : option (list Z))
  (img_channels first_kernel_size : Z) (net : ResNetBase.t) (H W : Z) :
  ResNetBase.init n_blocks n_channels bottlenecks img_channels first_kernel_size
  = Ok net ->
  0 < img_channels -> 0 < width_at n_channels 0 ->
  0 < first_kernel_size -> 0 < H -> 0 < W ->
  strided (conv_out H first_kernel_size 2 (first_kernel_size / 2)) 2 = 1 ->
  strided (conv_out W first_kernel_size 2 (first_kernel_size / 2)) 2 = 1 ->
  ResNetBase.forward (ops := shape_ops (mode := training_mode)) net
    [1; img_channels; H; W] = Raise ValueError.
Proof.
  rename first_kernel_size into k. intros Built Hi Hc Hk HH HW E1 E2.
  pose proof (stem_extent_pos H k Hk HH) as P1.
  pose proof (stem_extent_pos W k Hk HW) as P2.
  rewrite forward_steps. unfold stem_forward, shape.
  rewrite (stem_conv_shape (mode := training_mode) _ _ _ _ _ _ Built 1 H W
             Hi Hc Hk HH HW).
  cbn [bind].
  destruct (init_Ok _ _ _ _ _ _ Built) as (_ & _ & _ & _ & -> & _ & _).
  destruct (blocks_head _ _ _ _ _ _ Built) as (rest & ->).
  set (h1 := conv_out H k 2 (k / 2)) in *.
  set (w1 := conv_out W k 2 (k / 2)) in *.
  cbn [layer_forward batch_norm shape_ops batch_norm_shape].
  change (@training training_mode) with true. cbn [andb].
  destruct (1 * h1 * w1 =? 1); [reflexivity |].
  assert (Pn : 0 < 1 * width_at n_channels 0 * h1 * w1)
    by (repeat apply Z.mul_pos_pos; lia).
  destruct (Z.eqb_spec (1 * width_at n_channels 0 * h1 * w1) 0) as [Ez | _];
    [lia |].
  rewrite Z.eqb_refl. cbn [bind blocks_forward].
  rewrite block_forward_paths. unfold spec_first_block.
  rewrite block_shortcut_built.
  change (prev_width n_channels 0) with (width_at n_channels 0).
  cbn [Nat.eqb]. rewrite shortcut_of_stride_2.
  cbn [shortcut_forward]. unfold ShortcutProjection.forward.
  cbn [ShortcutProjection.conv ShortcutProjection.bn].
  rewrite (conv_1_forward_shape (mode := training_mode)) by lia.
  rewrite E1, E2. reflexivity.
Qed.

(** ** Adding a stage *)

Section Extend.
Variables (n_blocks n_channels : list Z) (bottlenecks : option (list Z)).
Variables (n c w : Z).
Hypothesis L1 : length n_blocks = length n_channels.
Hypothesis L2 : forall bs, bottlenecks = Some bs -> length bs = length n_channels.

(** The configuration with one more stage: [n] blocks of width [c], with
    bottleneck width [w] if bottleneck widths are given. *)
Local Abbreviation more_blocks := (n_blocks ++ [n]).
Local Abbreviation more_channels := (n_channels ++ [c]).
Local Abbreviation more_bottlenecks :=
  (option_map (fun bs => bs ++ [w]) bottlenecks).

Lemma bottleneck_at_extend i :
  (i < length n_channels)%nat ->
  bottleneck_at more_bottlenecks i = bottleneck_at bottlenecks i.
Proof.
  intros Li. unfold bottleneck_at. destruct bottlenecks as [bs |]; [| reflexivity].
  cbn [option_map]. rewrite app_nth1; [reflexivity |].
  rewrite (L2 bs eq_refl). exact Li.
Qed.

Lemma spec_stage_extend i :
  (i < length n_channels)%nat ->
  spec_stage more_blocks more_channels more_bottlenecks i
  = spec_stage n_blocks n_channels bottlenecks i.
Proof.
  intros Li.
  unfold spec_stage, spec_first_block, spec_inner_block,
    count_at, width_at, prev_width.
  rewrite bottleneck_at_extend by exact Li.
  rewrite !app_nth1 by lia. reflexivity.
Qed.

Lemma spec_stage_added :
  n_channels <> [] ->
  spec_stage more_blocks more_channels more_bottlenecks (length n_channels)
  = built_block (option_map (fun _ => w) bottlenecks) (last n_channels 0) c 1
    :: repeat (built_block (option_map (fun _ => w) bottlenecks) c c 1)
         (Z.to_nat (n - 1)).
Proof.
  intros Hne.
  assert (Lp : (0 < length n_channels)%nat).
  { destruct n_channels; [congruence | simpl; lia]. }
  assert (Eb : bottleneck_at more_bottlenecks (length n_channels)
               = option_map (fun _ => w) bottlenecks).
  { unfold bottleneck_at. destruct bottlenecks as [bs |]; [| reflexivity].
    cbn [option_map]. rewrite <- (L2 bs eq_refl). now rewrite nth_middle. }
  assert (Ec : nth (length n_channels) (n_channels ++ [c]) 0 = c)
    by apply nth_middle.
  assert (En : nth (length n_channels) (n_blocks ++ [n]) 0 = n)
    by (rewrite <- L1; apply nth_middle).
  assert (Ep : nth (Nat.pred (length n_channels)) (n_channels ++ [c]) 0
               = last n_channels 0)
    by (rewrite app_nth1 by lia; apply nth_pred_length_last).
  unfold spec_stage, spec_first_block, spec_inner_block,
    count_at, width_at, prev_width.
  rewrite Eb, Ec, En, Ep.
  destruct (Nat.eqb_spec (length n_channels) 0); [lia | reflexivity].
Qed.

Lemma spec_blocks_extend :
  n_channels <> [] ->
  spec_blocks more_blocks more_channels more_bottlenecks
  = spec_blocks n_blocks n_channels bottlenecks
    ++ built_block (option_map (fun _ => w) bottlenecks) (last n_channels 0) c 1
       :: repeat (built_block (option_map (fun _ => w) bottlenecks) c c 1)
            (Z.to_nat (n - 1)).
Proof.
  intros Hne. unfold spec_blocks.
  rewrite length_app. cbn [length]. rewrite seq_app, map_app, concat_app.
  cbn [Nat.add seq map concat]. rewrite app_nil_r, spec_stage_added by exact Hne.
  f_equal. f_equal. apply map_ext_in. intros i Hi.
  apply in_seq in Hi. apply spec_stage_extend. lia.
Qed.
End Extend.

(** X12. When a configuration and the configuration with one more stage
    ([n] blocks of width [c], with bottleneck width [w] if bottleneck widths
    are used) both build, the larger network has the same stem and the
    same blocks, followed by the blocks of the new stage: one block from
    [n_channels[-1]] to [c] and [n - 1] blocks at width [c], all of them
    with stride 1. *)
Theorem X12_adding_a_stage_appends_its_blocks
  (n_blocks n_channels : list Z) (bottlenecks : option (list Z))
  (img_channels first_kernel_size : Z) (net net' : ResNetBase.t) (n c w : Z) :
  ResNetBase.init n_blocks n_channels bottlenecks img_channels first_kernel_size
  = Ok net ->
  ResNetBase.init (n_blocks ++ [n]) (n_channels ++ [c])
    (option_map (fun bs => bs ++ [w]) bottlenecks)
    img_channels first_kernel_size = Ok net' ->
  ResNetBase.conv net' = ResNetBase.conv net
  /\ ResNetBase.bn net' = ResNetBase.bn net
  /\ ResNetBase.blocks net'
     = ResNetBase.blocks net
       ++ built_block (option_map (fun _ => w) bottlenecks) (last n_channels 0) c 1
          :: repeat (built_block (option_map (fun _ => w) bottlenecks) c c 1)
               (Z.to_nat (n - 1)).
Proof.
  intros Built Built'.
  destruct (init_Ok _ _ _ _ _ _ Built) as (L1 & L2 & Hne & Ec & Eb & _ & Ebl).
  destruct (init_Ok _ _ _ _ _ _ Built') as (_ & _ & _ & Ec' & Eb' & _ & Ebl').
  assert (E0 : width_at (n_channels ++ [c]) 0 = width_at n_channels 0).
  { unfold width_at. destruct n_channels; [congruence | reflexivity]. }
  rewrite Ec', Eb', Ebl', Ec, Eb, Ebl, E0.
  repeat split. now apply spec_blocks_extend.
Qed.

(** ** Counting the projections *)

Lemma projections_app bs1 bs2 :
  projections (bs1 ++ bs2) = projections bs1 ++ projections bs2.
Proof. apply filter_app. Qed.

Lemma projections_same_width m c n :
  projections (repeat (built_block m c c 1) n) = [].
Proof.
  induction n as [| n IH]; [reflexivity |].
  cbn [repeat]. unfold projections in *. cbn [filter].
  now rewrite block_shortcut_built, shortcut_of_same.
Qed.

Section CountProjections.
Variables (n_blocks n_channels : list Z) (bottlenecks : option (list Z)).

Local Abbreviation changes i :=
  (negb (nth (Nat.pred i) n_channels 0 =? nth i n_channels 0)).

Lemma projections_first_stage :
  length (projections (spec_stage n_blocks n_channels bottlenecks 0)) = 1%nat.
Proof.
  unfold spec_stage, spec_first_block, spec_inner_block, projections.
  cbn [filter Nat.eqb].
  rewrite block_shortcut_built, shortcut_of_stride_2. cbn [is_projection length].
  f_equal.
  change (filter _ (repeat ?b ?n)) with (projections (repeat b n)).
  now rewrite projections_same_width.
Qed.

Lemma projections_later_stage i :
  i <> 0%nat ->
  length (projections (spec_stage n_blocks n_channels bottlenecks i))
  = if changes i then 1%nat else 0%nat.
Proof.
  intros Hi. unfold spec_stage. rewrite spec_first_block_later by exact Hi.
  unfold spec_inner_block, projections. cbn [filter].
  rewrite block_shortcut_built, is_projection_shortcut_of.
  change (filter _ (repeat ?b ?n)) with (projections (repeat b n)).
  rewrite projections_same_width. unfold prev_width, width_at.
  cbn [Z.eqb Pos.eqb negb orb].
  now destruct (changes i).
Qed.

Lemma projections_later_stages n : forall a,
  a <> 0%nat ->
  length (projections
            (concat (map (spec_stage n_blocks n_channels bottlenecks) (seq a n))))
  = length (filter (fun i => changes i) (seq a n)).
Proof.
  induction n as [| n IH]; intros a Ha; [reflexivity |].
  cbn [seq map concat filter].
  rewrite projections_app, length_app, projections_later_stage, IH by lia.
  now destruct (changes a).
Qed.
End CountProjections.

(** X13. A built network has one [ShortcutProjection] for its first block
    and one more for each stage [i > 0] whose width differs from the
    previous stage's: their number is one plus the number of width
    changes, whatever the block counts and the class of the blocks. *)
Theorem X13_number_of_projections
  (n_blocks n_channels : list Z) (bottlenecks : option (list Z))
  (img_channels first_kernel_size : Z) (net : ResNetBase.t) :
  ResNetBase.init n_blocks n_channels bottlenecks img_channels first_kernel_size
  = Ok net ->
  length (projections (ResNetBase.blocks net))
  = S (length (width_changes n_channels)).
Proof.
  intros Built.
  destruct (init_Ok _ _ _ _ _ _ Built) as (_ & _ & Hne & _ & _ & _ & ->).
  unfold spec_blocks, width_changes.
  destruct (length n_channels) as [| n] eqn:Len.
  { destruct n_channels; [congruence | discriminate]. }
  cbn [seq map concat Nat.pred].
  rewrite projections_app, length_app, projections_first_stage.
  rewrite projections_later_stages by lia. reflexivity.
Qed.
End WithAllocator.

(* ================================================================= *)
(** * Concrete configurations

    The theorems above at concrete configurations, on a machine that
    allocates tensors of up to [2^31] elements. *)

Lemma C1_stride_2_only_at_first_block_witness :
  exists net,
    ResNetBase.init (alloc := small_machine) [2; 2] [64; 128] None 3 7 = Ok net
    /\ (exists rest,
          ResNetBase.blocks net = built_block None 64 64 2 :: rest
          /\ In 2 (conv_strides (built_block None 64 64 2))
          /\ Forall (fun b => Forall (eq 1) (conv_strides b)) rest)
    /\ nth_error (ResNetBase.blocks net) 2 = Some (built_block None 64 128 1).
Proof.
  eexists. split; [reflexivity |].
  destruct (C1_stride_2_only_at_first_block (alloc := small_machine)
              [2; 2] [64; 128] None 3 7 _ eq_refl)
    as (P1 & P2 & _).
  split; [exact P1 |].
  destruct (P2 1%nat (conj (le_n 1) (le_n 2))) as (b & Hb & -> & _). exact Hb.
Defined.

Lemma C2_shortcut_and_transformed_shapes_agree_witness :
  exists blk,
    block_init (alloc := small_machine) None 64 128 2 = Ok blk
    /\ shortcut_forward (ops := shape_ops (mode := training_mode))
         (block_shortcut blk) [1; 64; 56; 56] = Ok [1; 128; 28; 28]
    /\ sequential (ops := shape_ops (mode := training_mode))
         (block_res blk) [1; 64; 56; 56] = Ok [1; 128; 28; 28].
Proof.
  eexists. split; [reflexivity |].
  assert (Hd : 64 <> 128 \/ 2 <> 1) by (left; discriminate).
  assert (Hm : forall wv : Z, @None Z = Some wv -> 0 < wv) by discriminate.
  assert (En : enough_values (mode := training_mode) 1 (strided 56 2) (strided 56 2))
    by (intros _; vm_compute; discriminate).
  destruct (C2_shortcut_and_transformed_shapes_agree
              (alloc := small_machine) (mode := training_mode)
              None 64 128 2 _ 1 56 56 eq_refl Hd eq_refl eq_refl Hm
              eq_refl eq_refl eq_refl En)
    as (_ & P1 & P2 & _).
  split; [exact P1 | exact P2].
Defined.

Lemma C3_build_succeeds_with_sum_blocks_witness :
  exists net,
    ResNetBase.init_default (alloc := small_machine)
      [2; 2; 2; 2] [64; 128; 256; 512] = Ok net
    /\ ResNetBase.blocks net = spec_blocks [2; 2; 2; 2] [64; 128; 256; 512] None
    /\ Z.of_nat (length (ResNetBase.blocks net)) = 8.
Proof.
  apply (C3_build_succeeds_with_sum_blocks (alloc := small_machine)
           [2; 2; 2; 2] [64; 128; 256; 512]).
  - discriminate.
  - reflexivity.
  - repeat constructor.
  - repeat constructor.
  - reflexivity.
Defined.

(** With empty lists both assertions pass and [n_channels[0]] raises, on
    every machine; and a width the machine cannot allocate makes a layer
    constructor raise. *)
Lemma C3_counterexample_empty_lists :
  (length (@nil Z) = length (@nil Z)
   /\ Forall (fun n => 0 < n) (@nil Z)
   /\ Forall (fun c => 0 < c) (@nil Z)
   /\ (forall alloc : Allocator,
         ResNetBase.init_default (alloc := alloc) [] [] = Raise IndexError)
   /\ ~ (exists net,
           ResNetBase.init_default (alloc := small_machine) [] [] = Ok net))
  /\ (length [1] = length [2 ^ 62]
      /\ Forall (fun n => 0 < n) [1]
      /\ Forall (fun c => 0 < c) [2 ^ 62]
      /\ ~ (exists net,
              ResNetBase.init_default (alloc := small_machine) [1] [2 ^ 62]
              = Ok net)).
Proof.
  split.
  - repeat split; try constructor.
    intros (net & H). discriminate H.
  - repeat split; try (repeat constructor).
    intros (net & H). vm_compute in H. discriminate H.
Qed.

Lemma C4_length_mismatch_raises_witness :
  ResNetBase.init (alloc := small_machine) [2; 2] [64; 128; 256] None 3 7
  = Raise AssertionError
  /\ ResNetBase.init (alloc := small_machine) [2; 2] [64; 128] (Some [64]) 3 7
     = Raise AssertionError.
Proof.
  split.
  - apply C4_length_mismatch_raises. left. discriminate.
  - apply C4_length_mismatch_raises. right. exists [64]. split; [reflexivity |].
    discriminate.
Defined.

(** The 18-layer configuration of the design's end-to-end scenario, in
    training mode, on two input extents. *)
Lemma C5_forward_output_shape_witness :
  exists net,
    ResNetBase.init (alloc := small_machine)
      [2; 2; 2; 2] [64; 128; 256; 512] None 3 7 = Ok net
    /\ ResNetBase.forward (ops := shape_ops (mode := training_mode)) net
         [1; 3; 224; 224] = Ok [1; 512]
    /\ ResNetBase.forward (ops := shape_ops (mode := training_mode)) net
         [1; 3; 160; 96] = Ok [1; 512].
Proof.
  assert (Pc : Forall (fun c => 0 < c) [64; 128; 256; 512])
    by (repeat constructor).
  assert (Pb : forall bs, @None (list Z) = Some bs -> Forall (fun w => 0 < w) bs)
    by discriminate.
  eexists. split; [reflexivity |]. split.
  - apply (C5_forward_output_shape (alloc := small_machine) (mode := training_mode)
             [2; 2; 2; 2] [64; 128; 256; 512] None 3 7 _ 1 224 224 eq_refl
             eq_refl Pc Pb eq_refl eq_refl eq_refl eq_refl).
    intros _. vm_compute. discriminate.
  - apply (C5_forward_output_shape (alloc := small_machine) (mode := training_mode)
             [2; 2; 2; 2] [64; 128; 256; 512] None 3 7 _ 1 160 96 eq_refl
             eq_refl Pc Pb eq_refl eq_refl eq_refl eq_refl).
    intros _. vm_compute. discriminate.
Defined.

(** The same network raises on an empty batch, at the [view], and in
    training mode on a single image too small for the normalizations. *)
Lemma C5_counterexample_empty_batch_and_single_value :
  exists net,
    ResNetBase.init (alloc := small_machine)
      [2; 2; 2; 2] [64; 128; 256; 512] None 3 7 = Ok net
    /\ ResNetBase.forward (ops := shape_ops (mode := training_mode)) net
         [0; 3; 224; 224] = Raise RuntimeError
    /\ ResNetBase.forward (ops := shape_ops (mode := training_mode)) net
         [1; 3; 4; 4] = Raise ValueError.
Proof. eexists. split; [reflexivity |]. split; reflexivity. Qed.

(** The same configuration with bottleneck blocks keeps the declared output
    width. *)
Example bottleneck_end_to_end :
  exists net,
    ResNetBase.init (alloc := small_machine)
      [2; 2; 2; 2] [64; 128; 256; 512] (Some [64; 128; 256; 512]) 3 7
    = Ok net
    /\ ResNetBase.forward (ops := shape_ops (mode := training_mode)) net
         [1; 3; 224; 224] = Ok [1; 512].
Proof. eexists. split; reflexivity. Qed.

Lemma C6_identity_shortcut_returns_input_witness :
  exists blk,
    block_init (alloc := small_machine) None 64 64 1 = Ok blk
    /\ block_shortcut blk = IdentityShortcut
    /\ shortcut_forward (ops := shape_ops (mode := training_mode))
         (block_shortcut blk) [1; 64; 56; 56] = Ok [1; 64; 56; 56].
Proof.
  eexists. split; [reflexivity |].
  apply (C6_identity_shortcut_returns_input (alloc := small_machine)
           (ops := shape_ops (mode := training_mode)) None 64 64 1 _
           [1; 64; 56; 56] eq_refl eq_refl eq_refl).
Defined.

Lemma C7_bottleneck_sequence_and_output_width_witness :
  exists blk,
    BottleneckResidualBlock.init (alloc := small_machine) 64 64 256 2 = Ok blk
    /\ BottleneckResidualBlock.forward (ops := shape_ops (mode := training_mode))
         blk [1; 64; 56; 56] = Ok [1; 256; 28; 28].
Proof.
  eexists. split; [reflexivity |].
  destruct (C7_bottleneck_sequence_and_output_width (alloc := small_machine)
              64 64 256 2 _ eq_refl)
    as (_ & _ & P).
  apply (P training_mode 1 56 56); try reflexivity.
  intros _. vm_compute. discriminate.
Defined.

Lemma C8_projection_output_shape_witness :
  exists p,
    ShortcutProjection.init (alloc := small_machine) 64 128 2 = Ok p
    /\ ShortcutProjection.forward (ops := shape_ops (mode := training_mode))
         p [1; 64; 56; 56] = Ok [1; 128; 28; 28].
Proof.
  eexists. split; [reflexivity |].
  assert (En : enough_values (mode := training_mode) 1
                 ((56 - 1) / 2 + 1) ((56 - 1) / 2 + 1))
    by (intros _; vm_compute; discriminate).
  destruct (C8_projection_output_shape (alloc := small_machine)
              (mode := training_mode)
              64 128 2 _ 1 56 56 eq_refl eq_refl eq_refl eq_refl eq_refl eq_refl En)
    as (_ & _ & P).
  exact P.
Defined.

(** In training mode the projection of a single [2 x 2] image with stride 2
    leaves one value per channel, and the normalization raises. *)
Lemma C8_counterexample_single_value :
  exists p,
    ShortcutProjection.init (alloc := small_machine) 64 128 2 = Ok p
    /\ ShortcutProjection.forward (ops := shape_ops (mode := training_mode))
         p [1; 64; 2; 2] = Raise ValueError.
Proof. eexists. split; reflexivity. Qed.

Lemma C9_zero_count_stage_has_one_block_witness :
  exists net,
    ResNetBase.init (alloc := small_machine) [0; 2] [4; 8] None 3 7 = Ok net
    /\ Z.of_nat (length (ResNetBase.blocks net)) = 3
    /\ sum [0; 2] = 2
    /\ nth_error (ResNetBase.blocks net) 0 = Some (built_block None 4 4 2)
    /\ stage_start [0; 2] 1 = 1%nat.
Proof.
  eexists. split; [reflexivity |].
  destruct (C9_zero_count_stage_has_one_block (alloc := small_machine)
              [0; 2] [4; 8] None 3 7 _ eq_refl)
    as (P1 & P2).
  split; [exact P1 |]. split; [reflexivity |]. exact (P2 0%nat eq_refl).
Defined.

Lemma C10_projection_only_where_width_changes_witness :
  exists net,
    ResNetBase.init (alloc := small_machine) [2; 2; 2] [64; 64; 128] None 3 7
    = Ok net
    /\ (forall j, (j < 2)%nat ->
          exists b, nth_error (ResNetBase.blocks net) (2 + j) = Some b
                    /\ b = built_block None 64 64 1
                    /\ block_shortcut b = IdentityShortcut).
Proof.
  eexists. split; [reflexivity |].
  destruct (C10_projection_only_where_width_changes (alloc := small_machine)
              [2; 2; 2] [64; 64; 128] None 3 7 _ eq_refl) as (P & _).
  exact (P 1%nat (conj (le_n 1) (le_S 2 2 (le_n 2))) eq_refl).
Defined.

Lemma X1_same_width_block_preserves_shape_witness :
  exists blk,
    block_init (alloc := small_machine) (Some 16) 64 64 1 = Ok blk
    /\ block_forward (ops := shape_ops (mode := training_mode)) blk [8; 64; 7; 5]
       = Ok [8; 64; 7; 5].
Proof.
  eexists. split; [reflexivity |].
  assert (Hm : forall wv : Z, Some 16 = Some wv -> 0 < wv)
    by (intros wv [= <-]; reflexivity).
  apply (X1_same_width_block_preserves_shape (alloc := small_machine)
           (mode := training_mode)
           (Some 16) 64 _ 8 7 5 eq_refl eq_refl Hm eq_refl eq_refl).
  intros _. discriminate.
Defined.

Lemma X2_residual_sequence_and_output_shape_witness :
  exists blk,
    ResidualBlock.init (alloc := small_machine) 64 128 2 = Ok blk
    /\ ResidualBlock.forward (ops := shape_ops (mode := training_mode))
         blk [1; 64; 56; 56] = Ok [1; 128; 28; 28].
Proof.
  eexists. split; [reflexivity |].
  destruct (X2_residual_sequence_and_output_shape (alloc := small_machine)
              64 128 2 _ eq_refl)
    as (_ & _ & P).
  apply (P training_mode 1 56 56); try reflexivity.
  intros _. vm_compute. discriminate.
Defined.

Lemma X3_blocks_chain_channels_witness :
  exists net,
    ResNetBase.init (alloc := small_machine) [3; 4; 6; 3] [256; 512; 1024; 2048]
      (Some [64; 128; 256; 512]) 3 7 = Ok net
    /\ channels_through 256 (ResNetBase.blocks net) = Some 2048.
Proof.
  eexists. split; [reflexivity |].
  apply (X3_blocks_chain_channels (alloc := small_machine)
           [3; 4; 6; 3] [256; 512; 1024; 2048]
           (Some [64; 128; 256; 512]) 3 7 _ eq_refl).
Defined.

Lemma X4_block_class_follows_bottlenecks_witness :
  exists net,
    ResNetBase.init (alloc := small_machine) [1; 2] [256; 512] (Some [64; 128]) 3 7
    = Ok net
    /\ Forall (fun b => is_plain b = false) (ResNetBase.blocks net)
    /\ (forall b, nth_error (ResNetBase.blocks net) 2 = Some b ->
                  bottleneck_width b = Some 128).
Proof.
  eexists. split; [reflexivity |].
  destruct (X4_block_class_follows_bottlenecks (alloc := small_machine)
              [1; 2] [256; 512] (Some [64; 128])
              3 7 _ eq_refl) as (_ & P).
  destruct (P [64; 128] eq_refl) as (P1 & P2).
  split; [exact P1 |].
  intros b Hb. exact (P2 1%nat 1%nat b (le_n 2) (le_n 2) Hb).
Defined.

Lemma X5_blocks_halve_extent_once_witness :
  exists net,
    ResNetBase.init (alloc := small_machine) [3; 4; 6; 3] [64; 128; 256; 512]
      None 3 7 = Ok net
    /\ blocks_forward (ops := shape_ops (mode := training_mode))
         (ResNetBase.blocks net) [2; 64; 112; 112] = Ok [2; 512; 56; 56].
Proof.
  assert (Pc : Forall (fun c => 0 < c) [64; 128; 256; 512])
    by (repeat constructor).
  assert (Pb : forall bs, @None (list Z) = Some bs -> Forall (fun w => 0 < w) bs)
    by discriminate.
  eexists. split; [reflexivity |].
  apply (X5_blocks_halve_extent_once (alloc := small_machine)
           (mode := training_mode)
           [3; 4; 6; 3] [64; 128; 256; 512] None 3 7 _ 2 112 112 eq_refl
           Pc Pb eq_refl eq_refl).
  intros _. vm_compute. discriminate.
Defined.

Lemma X6_stem_output_shape_witness :
  exists net,
    ResNetBase.init (alloc := small_machine) [2; 2] [64; 128] None 3 7 = Ok net
    /\ stem_forward (ops := shape_ops (mode := training_mode)) net [1; 3; 224; 224]
       = Ok [1; 64; 112; 112]
    /\ stem_forward (ops := shape_ops (mode := training_mode)) net [1; 3; 225; 225]
       = Ok [1; 64; 113; 113].
Proof.
  eexists. split; [reflexivity |]. split.
  - apply (X6_stem_output_shape (alloc := small_machine) (mode := training_mode)
             [2; 2] [64; 128] None 3 7 _ 1 224 224 eq_refl
             eq_refl eq_refl eq_refl eq_refl eq_refl).
    intros _. vm_compute. discriminate.
  - apply (X6_stem_output_shape (alloc := small_machine) (mode := training_mode)
             [2; 2] [64; 128] None 3 7 _ 1 225 225 eq_refl
             eq_refl eq_refl eq_refl eq_refl eq_refl).
    intros _. vm_compute. discriminate.
Defined.

(** A configuration the small machine builds, and one it does not. *)
Lemma X7_constructor_succeeds_iff_witness :
  (exists net,
      ResNetBase.init (alloc := small_machine) [2; 2] [64; 128] None 3 7 = Ok net)
  /\ ~ (exists net,
          ResNetBase.init (alloc := small_machine) [1] [2 ^ 62] None 3 7 = Ok net).
Proof.
  split.
  - apply (proj2 (X7_constructor_succeeds_iff (alloc := small_machine)
                    [2; 2] [64; 128] None 3 7)).
    repeat split; discriminate.
  - intros Hb.
    apply (proj1 (X7_constructor_succeeds_iff (alloc := small_machine)
                    [1] [2 ^ 62] None 3 7)) in Hb.
    destruct Hb as (_ & _ & _ & C). vm_compute in C. discriminate C.
Defined.

Lemma X8_no_stage_raises_IndexError_witness :
  ResNetBase.init (alloc := small_machine) [] [] (Some []) 1 3 = Raise IndexError.
Proof.
  apply X8_no_stage_raises_IndexError; [reflexivity | reflexivity |].
  intros bs [= <-]. reflexivity.
Defined.

Lemma X9_forward_refuses_ill_shaped_input_witness :
  exists net,
    ResNetBase.init (alloc := small_machine) [2; 2] [64; 128] None 3 7 = Ok net
    /\ (exists e, ResNetBase.forward (ops := shape_ops (mode := eval_mode)) net
                    [1; 1; 224; 224] = Raise e)
    /\ (exists e, ResNetBase.forward (ops := shape_ops (mode := eval_mode)) net
                    [3; 224; 224] = Raise e).
Proof.
  eexists. split; [reflexivity |]. split.
  - apply (X9_forward_refuses_ill_shaped_input (alloc := small_machine)
             (mode := eval_mode) [2; 2] [64; 128] None 3 7 _ _ eq_refl).
    right. exists 1, 1, 224, 224. split; [reflexivity | discriminate].
  - apply (X9_forward_refuses_ill_shaped_input (alloc := small_machine)
             (mode := eval_mode) [2; 2] [64; 128] None 3 7 _ _ eq_refl).
    left. discriminate.
Defined.

Lemma X10_forward_raises_on_empty_batch_witness :
  exists net,
    ResNetBase.init (alloc := small_machine) [2; 2; 2; 2] [64; 128; 256; 512]
      None 3 7 = Ok net
    /\ ResNetBase.forward (ops := shape_ops (mode := eval_mode)) net
         [0; 3; 224; 224] = Raise RuntimeError.
Proof.
  assert (Pc : Forall (fun c => 0 < c) [64; 128; 256; 512])
    by (repeat constructor).
  assert (Pb : forall bs, @None (list Z) = Some bs -> Forall (fun w => 0 < w) bs)
    by discriminate.
  eexists. split; [reflexivity |].
  apply (X10_forward_raises_on_empty_batch (alloc := small_machine)
           (mode := eval_mode)
           [2; 2; 2; 2] [64; 128; 256; 512] None 3 7 _ 224 224 eq_refl
           eq_refl Pc Pb eq_refl eq_refl eq_refl).
Defined.

Lemma X11_training_needs_more_than_one_value_witness :
  exists net,
    ResNetBase.init (alloc := small_machine) [2; 2; 2; 2] [64; 128; 256; 512]
      None 3 7 = Ok net
    /\ ResNetBase.forward (ops := shape_ops (mode := training_mode)) net
         [1; 3; 4; 4] = Raise ValueError.
Proof.
  eexists. split; [reflexivity |].
  apply (X11_training_needs_more_than_one_value (alloc := small_machine)
           [2; 2; 2; 2] [64; 128; 256; 512] None 3 7 _ 4 4 eq_refl);
    reflexivity.
Defined.

Lemma X12_adding_a_stage_appends_its_blocks_witness :
  exists net net',
    ResNetBase.init (alloc := small_machine) [2] [64] None 3 7 = Ok net
    /\ ResNetBase.init (alloc := small_machine) [2; 2] [64; 128] None 3 7 = Ok net'
    /\ ResNetBase.blocks net'
       = ResNetBase.blocks net
         ++ [built_block None 64 128 1; built_block None 128 128 1].
Proof.
  eexists. eexists. split; [reflexivity |]. split; [reflexivity |].
  exact (proj2 (proj2 (X12_adding_a_stage_appends_its_blocks
                         (alloc := small_machine)
                         [2] [64] None 3 7 _ _ 2 128 0 eq_refl eq_refl))).
Defined.

Lemma X13_number_of_projections_witness :
  exists net,
    ResNetBase.init (alloc := small_machine) [2; 1; 3; 2] [64; 64; 128; 128]
      None 3 7 = Ok net
    /\ length (projections (ResNetBase.blocks net)) = 2%nat.
Proof.
  eexists. split; [reflexivity |].
  apply (X13_number_of_projections (alloc := small_machine)
           [2; 1; 3; 2] [64; 64; 128; 128] None 3 7 _ eq_refl).
Defined.
